(** * IFF reader of para-atm: [paraatm/io/iff_to_trx.py]

    A shallow embedding of [read_iff_file] and of the library calls it is
    built from, followed by the properties of the decoder.

    Text is modelled as [string] over code points below 256; a file is the
    list of its physical lines, line terminators removed (both [int] and
    [parse_version] ignore surrounding white space, so the terminator left
    on a field by [readline] or by iteration is immaterial).

    Library calls are modelled from their documented behaviour:
    - [str.split(',')], [int(str)]                       (module [Py]);
    - [pkg_resources.parse_version], i.e. PEP 440        (module [Pep440]);
    - [numpy.unique], [pandas.read_csv], [Series.isin],
      [DataFrame.rename], [pandas.to_datetime], [*=]      (module [Pd]).
    Limits of the pandas model: the quote character is not interpreted
    (fields are separated at every comma, as [str.split] does); numeric
    columns are exact decimals, so float64 rounding and int64 overflow are
    not represented; a column is numeric when every non-missing token of
    the chunk is a decimal literal, otherwise it is text (boolean columns
    and infinities are not distinguished from text). *)

From Stdlib Require Import String Ascii List ZArith NArith Bool Lia Arith.
From Stdlib Require Import Sorting.Sorted Sorting.Permutation FinFun.
Import ListNotations.

Local Open Scope string_scope.
Local Open Scope Z_scope.

(* ===================================================================== *)
(** ** Python strings and integers *)
(* ===================================================================== *)

Module Py.

Definition is_digit (c : ascii) : bool :=
  let n := nat_of_ascii c in (48 <=? n)%nat && (n <=? 57)%nat.

Definition digit_val (c : ascii) : N := N.of_nat (nat_of_ascii c - 48).

(** White space as [str.isspace] sees it on code points below 256. *)
Definition is_space (c : ascii) : bool :=
  let n := nat_of_ascii c in
  ((9 <=? n)%nat && (n <=? 13)%nat) || ((28 <=? n)%nat && (n <=? 32)%nat)
  || (n =? 133)%nat || (n =? 160)%nat.

Fixpoint all_space (s : string) : bool :=
  match s with
  | EmptyString => true
  | String c s' => is_space c && all_space s'
  end.

Fixpoint lstrip (s : string) : string :=
  match s with
  | EmptyString => EmptyString
  | String c s' => if is_space c then lstrip s' else s
  end.

Fixpoint rstrip (s : string) : string :=
  match s with
  | EmptyString => EmptyString
  | String c s' =>
      match rstrip s' with
      | EmptyString => if is_space c then EmptyString else String c EmptyString
      | r => String c r
      end
  end.

Definition strip (s : string) : string := rstrip (lstrip s).

(** [s.split(sep)] for a one-character separator: never empty. *)
Fixpoint split (sep : ascii) (s : string) : list string :=
  match s with
  | EmptyString => [EmptyString]
  | String c s' =>
      if Ascii.eqb c sep then EmptyString :: split sep s'
      else match split sep s' with
           | f :: fs => String c f :: fs
           | [] => [String c EmptyString]
           end
  end.

Definition split_comma : string -> list string := split ","%char.

(** Digits of an [int] literal: decimal digits, single underscores allowed
    between two digits. [prev] tells whether the previous character was a
    digit. *)
Fixpoint int_digits (acc : Z) (prev : bool) (s : string) : option Z :=
  match s with
  | EmptyString => if prev then Some acc else None
  | String c s' =>
      if is_digit c then int_digits (10 * acc + Z.of_N (digit_val c)) true s'
      else if Ascii.eqb c "_"%char then
             if prev then int_digits acc false s' else None
           else None
  end.

(** [int(s)]: [None] stands for [ValueError]. *)
Definition int (s : string) : option Z :=
  match strip s with
  | String "-" r => option_map Z.opp (int_digits 0 false r)
  | String "+" r => int_digits 0 false r
  | r => int_digits 0 false r
  end.

(** Maximal run of leading digits and the rest. *)
Fixpoint span_digits (s : string) : string * string :=
  match s with
  | EmptyString => (EmptyString, EmptyString)
  | String c s' =>
      if is_digit c then let (d, r) := span_digits s' in (String c d, r)
      else (EmptyString, s)
  end.

Fixpoint digits_value (acc : N) (s : string) : N :=
  match s with
  | EmptyString => acc
  | String c s' => digits_value (10 * acc + digit_val c) s'
  end.

Fixpoint all_digits (s : string) : bool :=
  match s with
  | EmptyString => true
  | String c s' => is_digit c && all_digits s'
  end.

Definition lower_char (c : ascii) : ascii :=
  let n := nat_of_ascii c in
  if (65 <=? n)%nat && (n <=? 90)%nat then ascii_of_nat (n + 32) else c.

Fixpoint lower (s : string) : string :=
  match s with
  | EmptyString => EmptyString
  | String c s' => String (lower_char c) (lower s')
  end.

(** [s] without the prefix [p], when it starts with it. *)
Fixpoint drop_prefix (p s : string) : option string :=
  match p, s with
  | EmptyString, _ => Some s
  | String a p', String b s' => if Ascii.eqb a b then drop_prefix p' s' else None
  | String _ _, EmptyString => None
  end.

(** Python's [<] on [str]: by code point, a proper prefix first. *)
Fixpoint str_compare (a b : string) : comparison :=
  match a, b with
  | EmptyString, EmptyString => Eq
  | EmptyString, String _ _ => Lt
  | String _ _, EmptyString => Gt
  | String x a', String y b' =>
      match Nat.compare (nat_of_ascii x) (nat_of_ascii y) with
      | Eq => str_compare a' b'
      | c => c
      end
  end.

End Py.

(* ===================================================================== *)
(** ** [pkg_resources.parse_version]: PEP 440 versions *)
(* ===================================================================== *)

Module Pep440.
Import Py.

Inductive pre_tag := TagA | TagB | TagRC.

Inductive local_part :=
| LNum (n : N)
| LStr (s : string).

(** What [packaging.version.Version] keeps of a version string. *)
Record version := mkVersion {
  epoch : N;
  release : list N;
  pre : option (pre_tag * N);
  post : option N;
  dev : option N;
  local : option (list local_part)
}.

(** *** Parsing

    The pattern of [packaging] is anchored at both ends and matched without
    regard to case. Each optional group below lists its ways to match in
    the order a backtracking matcher tries them; the first complete match
    gives the captured groups. *)

Definition is_sep (c : ascii) : bool :=
  Ascii.eqb c "-"%char || Ascii.eqb c "_"%char || Ascii.eqb c "."%char.

Definition is_alnum (c : ascii) : bool :=
  let n := nat_of_ascii c in
  is_digit c || ((97 <=? n)%nat && (n <=? 122)%nat).

(** [[-_.]?], greedy. *)
Definition opt_sep (s : string) : list string :=
  match s with
  | String c s' => if is_sep c then [s'; s] else [s]
  | EmptyString => [s]
  end.

Definition lit (p s : string) : list string :=
  match drop_prefix p s with
  | Some r => [r]
  | None => []
  end.

(** [[0-9]+?] as a number; an absent number counts as 0
    ([_parse_letter_version]). *)
Definition opt_num (s : string) : N * string :=
  let (d, r) := span_digits s in (digits_value 0 d, r).

Definition letter_alts {A} (letters : list (A * string)) (s : string)
  : list (A * N * string) :=
  flat_map (fun s1 =>
    flat_map (fun '(tag, l) =>
      flat_map (fun s2 =>
        map (fun s3 => let (n, s4) := opt_num s3 in (tag, n, s4)) (opt_sep s2))
        (lit l s1))
      letters)
    (opt_sep s).

Definition pre_letters : list (pre_tag * string) :=
  [(TagA, "a"); (TagB, "b"); (TagRC, "c"); (TagRC, "rc"); (TagA, "alpha");
   (TagB, "beta"); (TagRC, "pre"); (TagRC, "preview")].

Definition pre_alts (s : string) : list (option (pre_tag * N) * string) :=
  map (fun '(t, n, r) => (Some (t, n), r)) (letter_alts pre_letters s)
  ++ [(None, s)].

Definition post_alts (s : string) : list (option N * string) :=
  match s with
  | String "-" s' =>
      match span_digits s' with
      | (String _ _ as d, r) => [(Some (digits_value 0 d), r)]
      | _ => []
      end
  | _ => []
  end
  ++ map (fun '(_, n, r) => (Some n, r))
         (letter_alts [(tt, "post"); (tt, "rev"); (tt, "r")] s)
  ++ [(None, s)].

Definition dev_alts (s : string) : list (option N * string) :=
  map (fun '(_, n, r) => (Some n, r)) (letter_alts [(tt, "dev")] s)
  ++ [(None, s)].

(** Local version label [[a-z0-9]+([-_.][a-z0-9]+)*]: the segments in text
    form, [cur] being the segment under way. *)
Fixpoint local_segments (cur : string) (s : string) : list string * string :=
  match s with
  | String c s' =>
      if is_alnum c then local_segments (cur ++ String c EmptyString) s'
      else if is_sep c then
             match s' with
             | String d _ =>
                 if is_alnum d then
                   let (segs, r) := local_segments EmptyString s' in (cur :: segs, r)
                 else ([cur], s)
             | EmptyString => ([cur], s)
             end
           else ([cur], s)
  | EmptyString => ([cur], s)
  end.

Definition local_of_segment (seg : string) : local_part :=
  if all_digits seg then LNum (digits_value 0 seg) else LStr seg.

Definition local_alts (s : string) : list (option (list local_part) * string) :=
  match s with
  | String "+" (String d _ as s') =>
      if is_alnum d then
        let (segs, r) := local_segments EmptyString s' in
        [(Some (map local_of_segment segs), r)]
      else []
  | _ => []
  end
  ++ [(None, s)].

(** Release segment [[0-9]+(\.[0-9]+)*]; [cur] is the component under
    way. *)
Fixpoint release_go (cur : N) (s : string) : list N * string :=
  match s with
  | String c s' =>
      if is_digit c then release_go (10 * cur + digit_val c) s'
      else if Ascii.eqb c "."%char then
             match s' with
             | String d _ =>
                 if is_digit d then
                   let (rel, r) := release_go 0 s' in (cur :: rel, r)
                 else ([cur], s)
             | EmptyString => ([cur], s)
             end
           else ([cur], s)
  | EmptyString => ([cur], s)
  end.

(** [([0-9]+)!]?: the epoch, 0 when absent. *)
Definition epoch_of (s : string) : N * string :=
  match span_digits s with
  | (String _ _ as d, String "!" r) => (digits_value 0 d, r)
  | _ => (0%N, s)
  end.

Definition drop_v (s : string) : string :=
  match s with
  | String "v" s' => s'
  | _ => s
  end.

(** [parse_version(s)]; [None] stands for [InvalidVersion] (releases of
    [pkg_resources] before 2023 answered with a legacy version object that
    sorts below every PEP 440 version; no statement below rests on the
    outcome for a string PEP 440 rejects). *)
Definition parse_version (s : string) : option version :=
  let (ep, s1) := epoch_of (drop_v (lower (lstrip s))) in
  match s1 with
  | String d _ =>
      if is_digit d then
        let (rel, s2) := release_go 0 s1 in
        hd_error
          (flat_map (fun '(p, s3) =>
             flat_map (fun '(po, s4) =>
               flat_map (fun '(dv, s5) =>
                 flat_map (fun '(lo, s6) =>
                   if all_space s6 then [mkVersion ep rel p po dv lo] else [])
                   (local_alts s5))
                 (dev_alts s4))
               (post_alts s3))
             (pre_alts s2))
      else None
  | EmptyString => None
  end.

(** *** Ordering: [Version._key] *)

(** A value between the two sentinels [NegativeInfinity] and [Infinity]. *)
Inductive ext (A : Type) :=
| NegInf
| Fin (a : A)
| PosInf.
Arguments NegInf {A}.
Arguments Fin {A} a.
Arguments PosInf {A}.

Definition ext_compare {A} (cmp : A -> A -> comparison) (x y : ext A) : comparison :=
  match x, y with
  | NegInf, NegInf => Eq
  | NegInf, _ => Lt
  | _, NegInf => Gt
  | PosInf, PosInf => Eq
  | PosInf, _ => Gt
  | _, PosInf => Lt
  | Fin a, Fin b => cmp a b
  end.

(** Python's tuple comparison: the first differing position decides, a
    proper prefix comes first. *)
Fixpoint tuple_compare {A} (cmp : A -> A -> comparison) (x y : list A) : comparison :=
  match x, y with
  | [], [] => Eq
  | [], _ :: _ => Lt
  | _ :: _, [] => Gt
  | a :: x', b :: y' =>
      match cmp a b with
      | Eq => tuple_compare cmp x' y'
      | c => c
      end
  end.

Definition lex (c1 c2 : comparison) : comparison :=
  match c1 with
  | Eq => c2
  | c => c
  end.

(** [dropwhile (== 0)] on the reversed release: trailing zeros removed. *)
Fixpoint strip_zeros (r : list N) : list N :=
  match r with
  | [] => []
  | x :: r' =>
      match strip_zeros r' with
      | [] => if (x =? 0)%N then [] else [x]
      | t => x :: t
      end
  end.

Definition tag_rank (t : pre_tag) : N :=
  match t with
  | TagA => 0
  | TagB => 1
  | TagRC => 2
  end%N.

Definition pre_compare (x y : pre_tag * N) : comparison :=
  lex (N.compare (tag_rank (fst x)) (tag_rank (fst y))) (N.compare (snd x) (snd y)).

Definition local_part_compare (x y : local_part) : comparison :=
  match x, y with
  | LNum a, LNum b => N.compare a b
  | LNum _, LStr _ => Gt
  | LStr _, LNum _ => Lt
  | LStr a, LStr b => str_compare a b
  end.

Definition key_pre (v : version) : ext (pre_tag * N) :=
  match pre v, post v, dev v with
  | None, None, Some _ => NegInf
  | None, _, _ => PosInf
  | Some p, _, _ => Fin p
  end.

Definition key_post (v : version) : ext N :=
  match post v with
  | None => NegInf
  | Some n => Fin n
  end.

Definition key_dev (v : version) : ext N :=
  match dev v with
  | None => PosInf
  | Some n => Fin n
  end.

Definition key_local (v : version) : ext (list local_part) :=
  match local v with
  | None => NegInf
  | Some l => Fin l
  end.

Definition compare (v w : version) : comparison :=
  lex (N.compare (epoch v) (epoch w))
 (lex (tuple_compare N.compare (strip_zeros (release v)) (strip_zeros (release w)))
 (lex (ext_compare pre_compare (key_pre v) (key_pre w))
 (lex (ext_compare N.compare (key_post v) (key_post w))
 (lex (ext_compare N.compare (key_dev v) (key_dev w))
      (ext_compare (tuple_compare local_part_compare) (key_local v) (key_local w)))))).

(** [v >= w] *)
Definition ge (v w : version) : bool :=
  match compare v w with
  | Lt => false
  | _ => true
  end.

Definition lt (v w : version) : bool := negb (ge v w).

(** A plain release, as [parse_version('2.13')] gives. *)
Definition of_release (r : list N) : version := mkVersion 0 r None None None None.

End Pep440.

(* ===================================================================== *)
(** ** Exceptions and results *)
(* ===================================================================== *)

(** The exceptions the decoder can end with. *)
Inductive exn :=
| FileNotFoundError
| IndexError            (* a list index out of range *)
| InvalidVersion        (* [parse_version] *)
| ValueError            (* [int], [read_csv(chunksize=...)], [to_datetime] *)
| KeyError_int (k : Z)  (* [cols[record_type]] *)
| KeyError_str (k : string) (* [chunk['AcId']] *)
| ParserError           (* [read_csv]: too many columns specified *)
| OutOfBoundsDatetime.

Inductive result (A : Type) :=
| Ok (a : A)
| Raise (e : exn).
Arguments Ok {A} a.
Arguments Raise {A} e.

Definition rbind {A B} (r : result A) (f : A -> result B) : result B :=
  match r with
  | Ok a => f a
  | Raise e => Raise e
  end.

Definition or_raise {A} (e : exn) (o : option A) : result A :=
  match o with
  | Some a => Ok a
  | None => Raise e
  end.

(** Left-to-right traversal that stops at the first exception. *)
Fixpoint rmap {A B} (f : A -> result B) (l : list A) : result (list B) :=
  match l with
  | [] => Ok []
  | x :: l' => rbind (f x) (fun y => rbind (rmap f l') (fun ys => Ok (y :: ys)))
  end.

(* ===================================================================== *)
(** ** numpy and pandas *)
(* ===================================================================== *)

Module Pd.
Import Py.

(** *** [numpy.unique]: sorted, without repetition *)

Fixpoint insert_unique (x : Z) (l : list Z) : list Z :=
  match l with
  | [] => [x]
  | y :: l' =>
      match x ?= y with
      | Lt => x :: l
      | Eq => l
      | Gt => y :: insert_unique x l'
      end
  end.

Definition unique (l : list Z) : list Z := fold_right insert_unique [] l.

(** *** Cell values *)

(** A number read from a decimal literal: [mant * 10 ^ expo]. *)
Record decimal := mkDecimal { mant : Z; expo : Z }.

Inductive cell :=
| NA                       (* missing: NaN *)
| Num (d : decimal)        (* int64 or float64 column *)
| Text (s : string)        (* object column *)
| Timestamp (secs : decimal) (* datetime64: [secs] seconds after the epoch *)
| NaT.                     (* missing time *)

Definition signed (s : string) : Z * string :=
  match s with
  | String "-" r => (-1, r)
  | String "+" r => (1, r)
  | _ => (1, s)
  end.

(** Exponent part of a literal: empty, or [e] with a signed integer. *)
Definition exponent (s : string) : option Z :=
  match s with
  | EmptyString => Some 0
  | String c r =>
      if Ascii.eqb (lower_char c) "e"%char then
        let (sg, ds) := signed r in
        match ds with
        | EmptyString => None
        | _ => if all_digits ds then Some (sg * Z.of_N (digits_value 0 ds)) else None
        end
      else None
  end.

(** The decimal literals the parser reads as numbers. *)
Definition parse_number (s : string) : option decimal :=
  let (sg, r0) := signed (strip s) in
  let (ip, r1) := span_digits r0 in
  let (fp, r2) := match r1 with
                  | String "." r => span_digits r
                  | _ => (EmptyString, r1)
                  end in
  match (ip ++ fp)%string with
  | EmptyString => None
  | ds => option_map
            (fun e => mkDecimal (sg * Z.of_N (digits_value 0 ds))
                                (e - Z.of_nat (String.length fp)))
            (exponent r2)
  end.

(** *** [read_csv] *)

(** [na_values='?'] on top of the default missing-value tokens. *)
Definition na_values : list string :=
  ["?"; ""; "#N/A"; "#N/A N/A"; "#NA"; "-1.#IND"; "-1.#QNAN"; "-NaN"; "-nan";
   "1.#IND"; "1.#QNAN"; "<NA>"; "N/A"; "NA"; "NULL"; "NaN"; "n/a"; "nan"; "null"].

Definition is_na (tok : string) : bool := existsb (String.eqb tok) na_values.

(** The [j]-th field of a tokenised line; a field the line does not have
    and a missing-value token both read as missing. *)
Definition token (row : list string) (j : nat) : option string :=
  match nth_error row j with
  | Some t => if is_na t then None else Some t
  | None => None
  end.

Definition is_number (t : string) : bool :=
  match parse_number t with
  | Some _ => true
  | None => false
  end.

(** The dtype of column [j] is inferred on the whole chunk. *)
Definition column_numeric (chunk : list (list string)) (j : nat) : bool :=
  forallb (fun row => match token row j with
                      | Some t => is_number t
                      | None => true
                      end) chunk.

Definition cell_of (chunk : list (list string)) (row : list string) (j : nat) : cell :=
  match token row j with
  | None => NA
  | Some t =>
      if column_numeric chunk j then
        match parse_number t with
        | Some d => Num d
        | None => Text t
        end
      else Text t
  end.

Record frame := mkFrame { columns : list string; rows : list (list cell) }.

Fixpoint chunks_fuel {A} (fuel k : nat) (l : list A) : list (list A) :=
  match fuel, l with
  | S fuel', _ :: _ => firstn k l :: chunks_fuel fuel' k (skipn k l)
  | _, _ => []
  end.

(** Successive batches of at most [k] rows. *)
Definition chunks_of {A} (k : nat) (l : list A) : list (list A) :=
  chunks_fuel (length l) k l.

Definition enumerate {A} (l : list A) : list (nat * A) := combine (seq 0 (length l)) l.

Definition max_width (chunk : list (list string)) : nat :=
  fold_right (fun row m => Nat.max (length row) m) 0%nat chunk.

(** One chunk of [read_csv(names=names, usecols=names)]: the first
    [len(names)] fields of every line; a line with fewer fields is completed
    with missing values. [width] is the table width the parser settled on
    when it was created. The parser gives up on a chunk none of whose lines
    reaches that width ("Too many columns specified: expected [width] and
    found ..."). *)
Definition read_chunk (names : list string) (width : nat) (chunk : list (list string))
  : result frame :=
  if (max_width chunk <? width)%nat then Raise ParserError
  else Ok (mkFrame names
             (map (fun row => map (cell_of chunk row) (seq 0 (length names))) chunk)).

(** [read_csv(filename, header=None, skiprows=skiprows, names=names,
    usecols=names, na_values='?', chunksize=chunksize)] on the lines of the
    file: the chunks in the order the iterator yields them, each one the
    frame or the exception its production ends with. [chunksize] must be at
    least 1. The table width is the number of fields of the first data line,
    or the number of names when that is larger. A file without data line
    yields one empty frame. *)
Definition read_csv (lines : list string) (skiprows : list nat) (names : list string)
    (chunksize : Z) : result (list (result frame)) :=
  if chunksize <? 1 then Raise ValueError
  else
    let data := map (fun '(_, line) => split_comma line)
                  (filter (fun '(i, _) => negb (existsb (Nat.eqb i) skiprows))
                     (enumerate lines)) in
    match data with
    | [] => Ok [Ok (mkFrame names [])]
    | first :: _ =>
        let width := Nat.max (length first) (length names) in
        Ok (map (read_chunk names width) (chunks_of (Z.to_nat chunksize) data))
    end.

(** *** Frames *)

Fixpoint index_of (name : string) (cols : list string) : option nat :=
  match cols with
  | [] => None
  | c :: cols' => if String.eqb c name then Some 0%nat
                  else option_map S (index_of name cols')
  end.

(** ['name' in df] *)
Definition has_column (name : string) (df : frame) : bool :=
  match index_of name (columns df) with
  | Some _ => true
  | None => false
  end.

Fixpoint update_nth {A} (j : nat) (f : A -> A) (l : list A) : list A :=
  match l, j with
  | [], _ => []
  | x :: l', O => f x :: l'
  | x :: l', S j' => x :: update_nth j' f l'
  end.

(** [Series.isin(values)] for a list of strings: only text is found. *)
Definition isin (values : list string) (c : cell) : bool :=
  match c with
  | Text s => existsb (String.eqb s) values
  | _ => false
  end.

(** [chunk[chunk[name].isin(values)]] *)
Definition select_isin (name : string) (values : list string) (df : frame) : result frame :=
  match index_of name (columns df) with
  | None => Raise (KeyError_str name)
  | Some j =>
      Ok (mkFrame (columns df)
            (filter (fun row => match nth_error row j with
                                | Some c => isin values c
                                | None => false
                                end) (rows df)))
  end.

(** [pd.concat(..., ignore_index=True)] over a generator of chunks that all
    have the columns [names]: the chunks are produced one after the other
    and the first exception ends the call. *)
Fixpoint concat (names : list string) (chunks : list (result frame)) : result frame :=
  match chunks with
  | [] => Ok (mkFrame names [])
  | c :: chunks' =>
      rbind c (fun df =>
      rbind (concat names chunks') (fun rest =>
      Ok (mkFrame names (rows df ++ rows rest)%list)))
  end.

(** [df.rename(columns=mapping)] *)
Definition rename (mapping : list (string * string)) (df : frame) : frame :=
  mkFrame
    (map (fun c => match find (fun '(old, _) => String.eqb old c) mapping with
                   | Some (_, new) => new
                   | None => c
                   end) (columns df))
    (rows df).

(** Nanoseconds must fit 64 bits: [-2^63 < secs * 10^9 < 2^63]. *)
Definition in_bounds (d : decimal) : bool :=
  let (num, den) := if 0 <=? expo d then (mant d * 10 ^ (expo d + 9), 1)
                    else (mant d * 10 ^ 9, 10 ^ (- expo d)) in
  (- 2 ^ 63 * den <? num) && (num <? 2 ^ 63 * den).

(** [pd.to_datetime(x, unit='s')] on one value. *)
Definition to_datetime_cell (c : cell) : result cell :=
  match c with
  | NA | NaT => Ok NaT
  | Num d => if in_bounds d then Ok (Timestamp d) else Raise OutOfBoundsDatetime
  | Text t =>
      match parse_number t with
      | Some d => if in_bounds d then Ok (Timestamp d) else Raise OutOfBoundsDatetime
      | None => Raise ValueError
      end
  | Timestamp d => Ok (Timestamp d)
  end.

(** [df[name] = pd.to_datetime(df[name], unit='s')] *)
Definition to_datetime (name : string) (df : frame) : result frame :=
  match index_of name (columns df) with
  | None => Ok df
  | Some j =>
      rbind (rmap (fun row =>
                     match nth_error row j with
                     | Some c => rbind (to_datetime_cell c)
                                   (fun c' => Ok (update_nth j (fun _ => c') row))
                     | None => Ok row
                     end) (rows df))
            (fun rs => Ok (mkFrame (columns df) rs))
  end.

Definition scale100 (d : decimal) : decimal := mkDecimal (mant d * 100) (expo d).

Fixpoint repeat_string (n : nat) (s : string) : string :=
  match n with
  | O => EmptyString
  | S n' => (s ++ repeat_string n' s)%string
  end.

(** [x * 100] on one value: missing stays missing, text is repeated. *)
Definition times100 (c : cell) : cell :=
  match c with
  | Num d => Num (scale100 d)
  | Text s => Text (repeat_string 100 s)
  | c => c
  end.

(** [df[name] *= 100] *)
Definition imul100 (name : string) (df : frame) : frame :=
  match index_of name (columns df) with
  | None => df
  | Some j => mkFrame (columns df) (map (update_nth j times100) (rows df))
  end.

End Pd.

(* ===================================================================== *)
(** ** The file system and the caller's objects *)
(* ===================================================================== *)

(** [record_types]: the string ['all'], a sequence of codes, or one code. *)
Inductive record_types_arg :=
| All
| Codes (l : list Z)
| Scalar (c : Z).

(** [callsigns]: [None], one string, or a list of strings. *)
Inductive callsigns_arg :=
| NoCallsigns
| OneCallsign (s : string)
| Callsigns (l : list string).

(** What a call can see and could change: the files, and the two objects
    the caller passes by reference. *)
Record world := mkWorld {
  files : list (string * list string);
  record_types_obj : record_types_arg;
  callsigns_obj : callsigns_arg
}.

(** Computations that read or write the world and may raise. *)
Definition M (A : Type) : Type := world -> result A * world.

Definition ret {A} (a : A) : M A := fun w => (Ok a, w).

Definition bind {A B} (m : M A) (f : A -> M B) : M B :=
  fun w => match m w with
           | (Ok a, w') => f a w'
           | (Raise e, w') => (Raise e, w')
           end.

Definition lift {A} (r : result A) : M A := fun w => (r, w).

Declare Scope io_scope.
Delimit Scope io_scope with io.
Notation "x <- m ;; k" := (bind m (fun x => k))
  (at level 61, m at next level, right associativity) : io_scope.
Notation "' p <- m ;; k" := (bind m (fun p => k))
  (at level 61, p pattern, m at next level, right associativity) : io_scope.

Fixpoint lookup_file (name : string) (fs : list (string * list string))
  : option (list string) :=
  match fs with
  | [] => None
  | (n, content) :: fs' => if String.eqb n name then Some content else lookup_file name fs'
  end.

(** [with open(filename, 'r') as f: ... f.readline()]: the first line, the
    empty string at the end of the file. *)
Definition open_readline (filename : string) : M string :=
  fun w => (match lookup_file filename (files w) with
            | Some content => Ok (hd EmptyString content)
            | None => Raise FileNotFoundError
            end, w).

(** [with open(filename, 'r', encoding=encoding) as f: [... for line in f]] *)
Definition open_lines (filename : string) : M (list string) :=
  fun w => (or_raise FileNotFoundError (lookup_file filename (files w)), w).

(** [pd.read_csv(filename, ...)] opens the file once more. *)
Definition pd_read_csv (filename : string) (skiprows : list nat) (names : list string)
    (chunksize : Z) : M (list (result Pd.frame)) :=
  fun w => (rbind (or_raise FileNotFoundError (lookup_file filename (files w)))
              (fun lines => Pd.read_csv lines skiprows names chunksize), w).

Definition arg_record_types : M record_types_arg := fun w => (Ok (record_types_obj w), w).
Definition arg_callsigns : M callsigns_arg := fun w => (Ok (callsigns_obj w), w).

(** [for x in l: acc = body(acc, x)] *)
Fixpoint for_each {A S} (l : list A) (body : S -> A -> M S) (acc : S) : M S :=
  match l with
  | [] => ret acc
  | x :: l' => bind (body acc x) (for_each l' body)
  end.

(* ===================================================================== *)
(** ** [read_iff_file] *)
(* ===================================================================== *)

Module Iff.
Import Py.

(** A [dict] with integer keys, in insertion order. *)
Definition dict (V : Type) : Type := list (Z * V).

Fixpoint dict_get {V} (d : dict V) (k : Z) : option V :=
  match d with
  | [] => None
  | (k', v) :: d' => if k' =? k then Some v else dict_get d' k
  end.

(** [d[k] = v]: a known key keeps its place. *)
Fixpoint dict_set {V} (d : dict V) (k : Z) (v : V) : dict V :=
  match d with
  | [] => [(k, v)]
  | (k', v') :: d' => if k' =? k then (k', v) :: d' else (k', v') :: dict_set d' k v
  end.

(** [d[k] += extra] on a key the table has. *)
Definition dict_extend (d : dict (list string)) (k : Z) (extra : list string)
  : dict (list string) :=
  map (fun '(k', v) => if k' =? k then (k', (v ++ extra)%list) else (k', v)) d.

(** Columns for each record type, from version 2.6 specification. *)
Definition base_cols : dict (list string) :=
  [(0, ["recType";"comment"]);
   (1, ["recType";"fileType";"fileFormatVersion"]);
   (2, ["recType";"recTime";"fltKey";"bcnCode";"cid";"Source";"msgType";"AcId";
        "recTypeCat";"acType";"Orig";"Dest";"opsType";"estOrig";"estDest"]);
   (3, ["recType";"recTime";"fltKey";"bcnCode";"cid";"Source";"msgType";"AcId";
        "recTypeCat";"coord1";"coord2";"alt";"significance";"coord1Accur";
        "coord2Accur";"altAccur";"groundSpeed";"course";"rateOfClimb";
        "altQualifier";"altIndicator";"trackPtStatus";"leaderDir";"scratchPad";
        "msawInhibitInd";"assignedAltString";"controllingFac";"controllingSeg";
        "receivingFac";"receivingSec";"activeContr";"primaryContr";"kybrdSubset";
        "kybrdSymbol";"adsCode";"opsType";"airportCode"]);
   (4, ["recType";"recTime";"fltKey";"bcnCode";"cid";"Source";"msgType";"AcId";
        "recTypeCat";"acType";"Orig";"Dest";"altcode";"alt";"maxAlt";
        "assignedAltString";"requestedAltString";"route";"estTime";"fltCat";
        "perfCat";"opsType";"equipList";"coordinationTime";
        "coordinationTimeType";"leaderDir";"scratchPad1";"scratchPad2";
        "fixPairScratchPad";"prefDepArrRoute";"prefDepRoute";"prefArrRoute"]);
   (5, ["recType";"dataSource";"programName";"programVersion"]);
   (6, ["recType";"recTime";"Source";"msgType";"rectypeCat";"sectorizationString"]);
   (7, ["recType";"recTime";"fltKey";"bcnCode";"cid";"Source";"msgType";"AcId";
        "recTypeCat";"coord1";"coord2";"alt";"significance";"coord1Accur";
        "coord2Accur";"altAccur";"msawtype";"msawTimeCat";"msawLocCat";
        "msawMinSafeAlt";"msawIndex1";"msawIndex2";"msawVolID"]);
   (8, ["recType";"recTime";"fltKey";"bcnCode";"cid";"Source";"msgType";"AcId";
        "recTypeCat";"acType";"Orig";"Dest";"depTime";"depTimeType";"arrTime";
        "arrTimeType"]);
   (9, ["recType";"recTime";"fltKey";"bcnCode";"cid";"Source";"msgType";"AcId";
        "recTypeCat";"coord1";"coord2";"alt";"pitchAngle";"trueHeading";
        "rollAngle";"trueAirSpeed";"fltPhaseIndicator"]);
   (10, ["recType";"recTime";"fltKey";"bcnCode";"cid";"Source";"msgType";"AcId";
         "recTypeCat";"configType";"configSpec"])].

Definition v2_13 : Pep440.version := Pep440.of_release [2; 13]%N.
Definition v2_15 : Pep440.version := Pep440.of_release [2; 15]%N.

(** The table [cols] once the two version tests have run; [v2_13] and
    [v2_15] are [parse_version('2.13')] and [parse_version('2.15')]. *)
Definition cols (version : Pep440.version) : dict (list string) :=
  let cols := base_cols in
  let cols :=
    if Pep440.ge version v2_13 then
      let cols := dict_extend cols 2 ["modeSCode"] in
      let cols := dict_extend cols 3 ["trackNumber";"tptReturnType";"modeSCode"] in
      dict_extend cols 4
        ["coordinationPoint";"coordinationPointType";"trackNumber";"modeSCode"]
    else cols in
  let cols :=
    if Pep440.ge version v2_15 then
      dict_extend cols 3 ["sensorTrackNumberList";"spi";"dvs";"dupM3a";"tid"]
    else cols in
  cols.

(** For consistency with other PARA-ATM data. *)
Definition renames : list (string * string) :=
  [("recTime", "time"); ("AcId", "callsign"); ("coord1", "latitude");
   ("coord2", "longitude"); ("alt", "altitude"); ("rateOfClimb", "rocd");
   ("groundSpeed", "tas"); ("course", "heading")].

(** [list(np.atleast_1d(callsigns))], [None] left alone. *)
Definition callsign_list (a : callsigns_arg) : option (list string) :=
  match a with
  | NoCallsigns => None
  | OneCallsign s => Some [s]
  | Callsigns l => Some l
  end.

(** [int(line.split(',')[0])] *)
Definition line_record_type (line : string) : result Z :=
  or_raise ValueError (int (hd EmptyString (split_comma line))).

(** [[i for i, lr in enumerate(line_record_types) if lr != record_type]] *)
Definition skiprows_for (line_record_types : list Z) (record_type : Z) : list nat :=
  map fst (filter (fun '(_, lr) => negb (lr =? record_type))
             (Pd.enumerate line_record_types)).

(** [pd.concat((chunk for chunk in ...))], or with
    [chunk[chunk['AcId'].isin(callsigns)]] when callsigns are given. *)
Definition gather (names : list string) (callsigns : option (list string))
    (chunks : list (result Pd.frame)) : result Pd.frame :=
  match callsigns with
  | None => Pd.concat names chunks
  | Some cs =>
      Pd.concat names (map (fun c => rbind c (Pd.select_isin "AcId" cs)) chunks)
  end.

(** The renaming and the two conversions. *)
Definition normalise (df : Pd.frame) : result Pd.frame :=
  let df := Pd.rename renames df in
  rbind (if Pd.has_column "time" df then Pd.to_datetime "time" df else Ok df)
    (fun df =>
       Ok (if Pd.has_column "altitude" df then Pd.imul100 "altitude" df else df)).

(** The rest of the loop body once the chunk iterator is there. *)
Definition assemble (names : list string) (callsigns : option (list string))
    (chunks : list (result Pd.frame)) : result Pd.frame :=
  rbind (gather names callsigns chunks) normalise.

(** What the call returns: one frame, or a [dict] of frames. *)
Inductive output :=
| Single (df : Pd.frame)
| Mapping (d : dict Pd.frame).

Local Open Scope io_scope.

Definition read_iff_file (filename : string) (chunksize : Z) : M output :=
  (* Determine file format version. *)
  first <- open_readline filename ;;
  field <- lift (or_raise IndexError (nth_error (split_comma first) 2)) ;;
  version <- lift (or_raise InvalidVersion (Pep440.parse_version field)) ;;
  let cols := cols version in
  (* Determine the record type of each row. *)
  lines <- open_lines filename ;;
  line_record_types <- lift (rmap line_record_type lines) ;;
  (* Which record types to retrieve, and the shape of the result. *)
  record_types <- arg_record_types ;;
  let '(record_types, scalar_result) :=
    match record_types with
    | All => (Pd.unique line_record_types, false)
    | Codes l => (l, false)
    | Scalar c => ([c], true)
    end in
  callsigns <- arg_callsigns ;;
  let callsigns := callsign_list callsigns in
  data_frames <-
    for_each record_types
      (fun data_frames record_type =>
         let skiprows := skiprows_for line_record_types record_type in
         names <- lift (or_raise (KeyError_int record_type) (dict_get cols record_type)) ;;
         chunks <- pd_read_csv filename skiprows names chunksize ;;
         df <- lift (assemble names callsigns chunks) ;;
         ret (dict_set data_frames record_type df))
      [] ;;
  if scalar_result then
    df <- lift (or_raise IndexError (nth_error record_types 0)) ;;
    df <- lift (or_raise (KeyError_int df) (dict_get data_frames df)) ;;
    ret (Single df)
  else ret (Mapping data_frames).

(** *** The decoder as a function of the file content

    [read_iff_file] opens the file several times and finds the same lines
    each time; [decode] is the same computation on those lines
    ([read_iff_file_decode] below relates the two). *)

(** One pass of the loop body, for one record type. *)
Definition extract (cols : dict (list string)) (lines : list string)
    (line_record_types : list Z) (callsigns : option (list string)) (chunksize : Z)
    (record_type : Z) : result Pd.frame :=
  rbind (or_raise (KeyError_int record_type) (dict_get cols record_type)) (fun names =>
  rbind (Pd.read_csv lines (skiprows_for line_record_types record_type) names chunksize)
    (fun chunks => assemble names callsigns chunks)).

Fixpoint collect (f : Z -> result Pd.frame) (record_types : list Z) (acc : dict Pd.frame)
  : result (dict Pd.frame) :=
  match record_types with
  | [] => Ok acc
  | rt :: rest => rbind (f rt) (fun df => collect f rest (dict_set acc rt df))
  end.

Definition detect_version (lines : list string) : result Pep440.version :=
  rbind (or_raise IndexError (nth_error (split_comma (hd EmptyString lines)) 2))
    (fun field => or_raise InvalidVersion (Pep440.parse_version field)).

Definition requested (a : record_types_arg) (line_record_types : list Z) : list Z :=
  match a with
  | All => Pd.unique line_record_types
  | Codes l => l
  | Scalar c => [c]
  end.

Definition decode (lines : list string) (record_types : record_types_arg)
    (callsigns : callsigns_arg) (chunksize : Z) : result output :=
  rbind (detect_version lines) (fun version =>
  rbind (rmap line_record_type lines) (fun line_record_types =>
  rbind (collect (extract (cols version) lines line_record_types
                    (callsign_list callsigns) chunksize)
           (requested record_types line_record_types) [])
    (fun data_frames =>
       match record_types with
       | Scalar c =>
           rbind (or_raise (KeyError_int c) (dict_get data_frames c))
             (fun df => Ok (Single df))
       | _ => Ok (Mapping data_frames)
       end))).

(** The lines [read_csv] is left with for [record_type]: those the
    classification gave that code. *)
Definition target_lines (lines : list string) (record_type : Z) : list string :=
  filter (fun line => match line_record_type line with
                      | Ok c => c =? record_type
                      | Raise _ => false
                      end) lines.

End Iff.

(* ===================================================================== *)
(** ** Versions as the specification words them *)
(* ===================================================================== *)

Module SpecVersion.
Import Py.

(** A well-formed dotted numeric string: non-empty runs of decimal digits
    separated by single dots; its numeric components. *)
Definition dotted_numeric (s : string) : option (list N) :=
  let parts := split "."%char s in
  if forallb (fun p => negb (String.eqb p EmptyString) && all_digits p) parts
  then Some (map (digits_value 0) parts)
  else None.

Fixpoint all_zero (l : list N) : bool :=
  match l with
  | [] => true
  | x :: l' => (x =? 0)%N && all_zero l'
  end.

(** Numeric comparison field by field (major, minor, patch, ...), a field
    that is not written counting as 0. *)
Fixpoint semver_compare (a b : list N) : comparison :=
  match a, b with
  | [], _ => if all_zero b then Eq else Lt
  | _ :: _, [] => if all_zero a then Eq else Gt
  | x :: a', y :: b' =>
      match N.compare x y with
      | Eq => semver_compare a' b'
      | c => c
      end
  end.

End SpecVersion.

(* ===================================================================== *)
(** ** Vocabulary of the statements *)
(* ===================================================================== *)

(** Names for what the statements below speak about: the rows the parser
    reads, the rows a callsign filter keeps, the work of [normalise] on one
    row, the values of a column. *)
Module Rows.
Import Py Pep440 Pd Iff.

(** The table with the columns of 2.13. *)
Definition cols_2_13 : dict (list string) :=
  dict_extend
    (dict_extend (dict_extend base_cols 2 ["modeSCode"]) 3
       ["trackNumber";"tptReturnType";"modeSCode"]) 4
    ["coordinationPoint";"coordinationPointType";"trackNumber";"modeSCode"].

Definition fields_2_15 : list string :=
  ["sensorTrackNumberList";"spi";"dvs";"dupM3a";"tid"].

(** Strings made of digits and dots only. *)
Fixpoint dotty (s : string) : bool :=
  match s with
  | EmptyString => true
  | String c s' => (is_digit c || Ascii.eqb c "."%char) && dotty s'
  end.

Definition skip_from (s : nat) (lrt : list Z) (rt : Z) : list nat :=
  map fst (filter (fun '(_, lr) => negb (lr =? rt)) (combine (seq s (length lrt)) lrt)).

(** The chunk iterator on tokenised data lines. *)
Definition chunk_frames (names : list string) (k : Z) (data : list (list string))
  : list (result frame) :=
  match data with
  | [] => [Ok (mkFrame names [])]
  | first :: _ =>
      map (read_chunk names (Nat.max (length first) (length names)))
        (chunks_of (Z.to_nat k) data)
  end.

(** The rows of a chunk as the parser types them. *)
Definition typed (names : list string) (chunk : list (list string)) : list (list cell) :=
  map (fun row => map (cell_of chunk row) (seq 0 (length names))) chunk.

Definition wide (width : nat) (chunks : list (list (list string))) : bool :=
  forallb (fun ch => negb (max_width ch <? width)%nat) chunks.

(** No chunk is rejected for being too narrow. *)
Definition parser_accepts (names : list string) (k : Z) (data : list (list string)) : bool :=
  match data with
  | [] => true
  | first :: _ =>
      wide (Nat.max (length first) (length names)) (chunks_of (Z.to_nat k) data)
  end.

(** The rows read from [data], chunk after chunk. *)
Definition raw_rows (names : list string) (k : Z) (data : list (list string))
  : list (list cell) :=
  flat_map (typed names) (chunks_of (Z.to_nat k) data).

(** The rows kept by [chunk[chunk['AcId'].isin(cs)]]. *)
Definition keep (j : nat) (cs : list string) (row : list cell) : bool :=
  match nth_error row j with
  | Some c => isin cs c
  | None => false
  end.

Definition named (names : list string) (chunks : list (result frame)) : Prop :=
  Forall (fun c => match c with
                   | Ok df => columns df = names
                   | Raise _ => True
                   end) chunks.

(** Every row read comes from one data line, in order: it holds the first
    [len(names)] fields of the line, typed within the chunk of the line. *)
Definition row_of (names : list string) (data : list (list string))
    (row : list cell) (fields : list string) : Prop :=
  exists chunk, In fields chunk /\ incl chunk data /\
                row = map (cell_of chunk fields) (seq 0 (length names)).

(** The new name of a column. *)
Definition renamed (c : string) : string :=
  match find (fun '(old, _) => String.eqb old c) renames with
  | Some (_, new) => new
  | None => c
  end.

(** What [normalise] does to one row; [ot] and [oa] are the places of the
    columns [time] and [altitude]. *)
Definition norm_row (ot oa : option nat) (row : list cell) : result (list cell) :=
  rbind
    (match ot with
     | Some j =>
         match nth_error row j with
         | Some c => rbind (to_datetime_cell c)
                       (fun c' => Ok (update_nth j (fun _ => c') row))
         | None => Ok row
         end
     | None => Ok row
     end)
    (fun row => Ok (match oa with
                    | Some j => update_nth j times100 row
                    | None => row
                    end)).

Definition opt_nat_eqb (a b : option nat) : bool :=
  match a, b with
  | Some x, Some y => (x =? y)%nat
  | None, None => true
  | _, _ => false
  end.

(** Renaming moves no column: the renamed columns sit where the original
    ones were, and no other column takes one of the new names. *)
Definition schema_ok (names : list string) : bool :=
  opt_nat_eqb (index_of "time" (map renamed names)) (index_of "recTime" names)
  && opt_nat_eqb (index_of "altitude" (map renamed names)) (index_of "alt" names)
  && opt_nat_eqb (index_of "callsign" (map renamed names)) (index_of "AcId" names).

Definition data_of (lines : list string) (rt : Z) : list (list string) :=
  map Py.split_comma (target_lines lines rt).

Definition nrow (names : list string) : list cell -> result (list cell) :=
  norm_row (index_of "time" (map renamed names)) (index_of "altitude" (map renamed names)).

(** Missing values, before and after the conversion of times. *)
Definition missing (c : cell) : bool :=
  match c with
  | NA | NaT => true
  | _ => false
  end.

Definition at_index (o : option nat) (j : nat) : bool :=
  match o with
  | Some i => (i =? j)%nat
  | None => false
  end.

Definition cell_eq_dec (x y : cell) : {x = y} + {x <> y}.
Proof.
  assert (Hd : forall a b : decimal, {a = b} + {a <> b}).
  { decide equality; apply Z.eq_dec. }
  decide equality; apply String.string_dec.
Defined.

(** The values of a column, from top to bottom. *)
Definition column (name : string) (df : frame) : list cell :=
  match index_of name (columns df) with
  | Some j => flat_map (fun row => match nth_error row j with
                                   | Some c => [c]
                                   | None => []
                                   end) (rows df)
  | None => []
  end.

(** [len(df[name].unique())] *)
Definition distinct_count (name : string) (df : frame) : nat :=
  length (nodup cell_eq_dec (column name df)).

(** The callsigns of [S] that occur in the column [callsign] of [df]. *)
Definition present (S : list string) (df : frame) : list string :=
  nodup String.string_dec
    (filter (fun s => if in_dec cell_eq_dec (Text s) (column "callsign" df)
                      then true else false) S).

(** The altitude of [row] is that of [line]: missing where the line has a
    missing value, one hundred times the number of the line otherwise. *)
Definition altitude_of (ja : nat) (line : string) (row : list cell) : Prop :=
  match token (Py.split_comma line) ja with
  | None => nth_error row ja = Some NA
  | Some t => exists d, parse_number t = Some d /\
                        nth_error row ja = Some (Num (scale100 d))
  end.

(** A token [to_datetime] converts: a number whose nanoseconds fit. *)
Definition is_epoch (t : string) : bool :=
  match parse_number t with
  | Some d => in_bounds d
  | None => false
  end.

(** The time of every line of the record type is missing or converts. *)
Definition times_convert (jt : nat) (lines : list string) (rt : Z) : Prop :=
  Forall (fun line => match token (Py.split_comma line) jt with
                      | Some t => is_epoch t = true
                      | None => True
                      end) (target_lines lines rt).

(** The request covers the record type [rt]. *)
Definition asks_for (record_types : record_types_arg) (lines : list string) (rt : Z)
  : Prop :=
  match record_types with
  | Scalar c => c = rt
  | Codes l => In rt l
  | All => exists line, In line lines /\ line_record_type line = Ok rt
  end.

End Rows.

(** Small files for the examples. *)
Module Samples.

(** A track point line with the given time, callsign and altitude. *)
Definition track_line (time acid alt : string) : string :=
  "3," ++ time ++ ",100,1200,7,src,msg," ++ acid ++ ",1,37.61,-122.37," ++ alt
  ++ ",1,?,?,?,12,270,0,?,?,?,?,?,?,?,?,?,?,?,?,?,?,?,?,?,?".

Definition sample_lines : list string :=
  ["1,IFF,2.6"; "0,sample";
   track_line "1546300800.5" "ABC123" "0.06";
   track_line "1546300801.5" "DEF456" "?";
   track_line "?" "ABC123" "12";
   track_line "1546300803" "GHI789" "1.5"].

Definition c7_lines : list string :=
  ["1,IFF,2.15"; "5,feed,reader,1.0,,"; "5,feed"].

End Samples.

(* ===================================================================== *)
(** ** Vocabulary of the further statements *)
(* ===================================================================== *)

Module More.
Import Py Pep440 Pd Iff Rows.

(** A three-way comparison that behaves as an order: swapping the
    arguments swaps the answer, equal elements compare alike with any third,
    and "less" is transitive. *)
Record ordering {A : Type} (cmp : A -> A -> comparison) : Prop := mkOrdering {
  o_sym : forall x y, cmp y x = CompOpp (cmp x y);
  o_eq : forall x y z, cmp x y = Eq -> cmp x z = cmp y z;
  o_lt : forall x y z, cmp x y = Lt -> cmp y z = Lt -> cmp x z = Lt
}.

(** The keys of a dictionary filled with [l] in turn, [seen] being there
    already: every new key once, where it first occurs. *)
Fixpoint new_keys (seen l : list Z) : list Z :=
  match l with
  | [] => []
  | x :: l' =>
      if existsb (Z.eqb x) seen then new_keys seen l'
      else x :: new_keys (seen ++ [x]) l'
  end.

(** The frames of a result. *)
Definition tables (out : output) : list frame :=
  match out with
  | Single df => [df]
  | Mapping d => map snd d
  end.

(** Total number of rows of the frames of a dictionary. *)
Definition total_rows (d : dict frame) : nat :=
  fold_right (fun '(_, df) n => (length (rows df) + n)%nat) 0%nat d.

Fixpoint nodupb (l : list string) : bool :=
  match l with
  | [] => true
  | x :: l' => negb (existsb (String.eqb x) l') && nodupb l'
  end.

(** A frame whose column names differ and whose rows all have one cell per
    column. *)
Definition well_formed (df : frame) : Prop :=
  NoDup (columns df) /\ Forall (fun row => length row = length (columns df)) (rows df).

(** The cell [c] holds the token [t] as the parser reads it: as text, or
    as the number it denotes. *)
Definition reads (t : string) (c : cell) : Prop :=
  c = Text t \/ exists d, parse_number t = Some d /\ c = Num d.

(** The cell [c] is what the parser makes of the [j]-th field of [line]. *)
Definition as_read (j : nat) (line : string) (c : cell) : Prop :=
  match token (split_comma line) j with
  | None => c = NA
  | Some t => reads t c
  end.

(** The time of [row] is that of [line]: the missing time where the line
    has a missing value, the instant the number of the line denotes
    otherwise. *)
Definition time_of (jt : nat) (line : string) (row : list cell) : Prop :=
  match token (split_comma line) jt with
  | None => nth_error row jt = Some NaT
  | Some t => exists d, parse_number t = Some d /\ in_bounds d = true /\
                        nth_error row jt = Some (Timestamp d)
  end.

(** The names [rename] replaces, and the names it puts in their place. *)
Definition old_names : list string := map fst renames.
Definition canonical_names : list string := map snd renames.

(** What holds of the renamed columns of every schema: no name twice, none
    of the replaced names left. *)
Definition columns_ok (names : list string) : bool :=
  nodupb (map renamed names)
  && forallb (fun old => negb (existsb (String.eqb old) (map renamed names))) old_names.

(** Every column of the data is of one kind: all its values that are not
    missing are numbers, or none is. *)
Definition homogeneous (n : nat) (data : list (list string)) : bool :=
  forallb (fun j =>
             column_numeric data j
             || forallb (fun row => match token row j with
                                    | Some t => negb (is_number t)
                                    | None => true
                                    end) data)
    (seq 0 n).

End More.

(* ===================================================================== *)
(** * Properties *)
(* ===================================================================== *)

(** ** Version ordering *)

Import Rows Samples More.

Module VersionFacts.
Import Py Pep440 SpecVersion.

Lemma strip_zeros_nil (l : list N) : strip_zeros l = [] <-> all_zero l = true.
Proof.
  induction l as [|x l IH]; simpl; [tauto|].
  destruct (strip_zeros l) eqn:E.
  - destruct (N.eqb_spec x 0); simpl; split; intros H; try discriminate; tauto.
  - split; [discriminate|].
    rewrite andb_true_iff. intros [_ H]. apply IH in H. discriminate.
Qed.

Lemma tuple_compare_nil_l (l : list N) :
  tuple_compare N.compare [] (strip_zeros l) = if all_zero l then Eq else Lt.
Proof.
  destruct (all_zero l) eqn:E.
  - apply strip_zeros_nil in E. now rewrite E.
  - destruct (strip_zeros l) eqn:E'; [|reflexivity].
    apply strip_zeros_nil in E'. congruence.
Qed.

Lemma tuple_compare_nil_r (l : list N) :
  tuple_compare N.compare (strip_zeros l) [] = if all_zero l then Eq else Gt.
Proof.
  destruct (all_zero l) eqn:E.
  - apply strip_zeros_nil in E. now rewrite E.
  - destruct (strip_zeros l) eqn:E'; [|reflexivity].
    apply strip_zeros_nil in E'. congruence.
Qed.

(** The key of [packaging] (trailing zeros dropped, tuples compared) orders
    releases as field-wise numeric comparison does. *)
Lemma release_key_semver (a b : list N) :
  tuple_compare N.compare (strip_zeros a) (strip_zeros b) = semver_compare a b.
Proof.
  revert b. induction a as [|x a IH]; intros b.
  - apply tuple_compare_nil_l.
  - destruct b as [|y b]; [apply tuple_compare_nil_r|].
    cbn [semver_compare]. rewrite <- IH. cbn [strip_zeros].
    destruct (strip_zeros a) as [|a1 ta], (strip_zeros b) as [|b1 tb];
      destruct (N.eqb_spec x 0), (N.eqb_spec y 0); subst; cbn;
      try rewrite N.compare_refl; try reflexivity;
      try (destruct (N.compare_spec x y); subst; cbn; try reflexivity; lia);
      try (destruct (N.compare_spec 0 y); subst; cbn; try reflexivity; lia);
      try (destruct (N.compare_spec x 0); subst; cbn; try reflexivity; lia).
  all: destruct y; [congruence|reflexivity].
Qed.

Lemma compare_of_release (a b : list N) :
  compare (of_release a) (of_release b) = semver_compare a b.
Proof.
  unfold compare, of_release. cbn. rewrite release_key_semver.
  now destruct (semver_compare a b).
Qed.

Lemma split_cons (sep : ascii) (s : string) : exists p ps, split sep s = p :: ps.
Proof.
  induction s as [|c s IH]; cbn; [eauto|].
  destruct (Ascii.eqb c sep); [eauto|].
  destruct IH as (p & ps & ->). eauto.
Qed.

Lemma is_digit_not_dot (c : ascii) : is_digit c = true -> Ascii.eqb c "."%char = false.
Proof.
  destruct (Ascii.eqb_spec c "."%char) as [->|]; [discriminate|reflexivity].
Qed.

Lemma all_digits_head (c : ascii) (s : string) :
  all_digits (String c s) = true -> is_digit c = true.
Proof. cbn. now intros [H _]%andb_true_iff. Qed.

(** On digits and dots, [release_go] reads what splitting at the dots
    gives. *)
Lemma release_go_split (s : string) : forall cur p ps,
  split "."%char s = p :: ps ->
  all_digits p = true ->
  forallb (fun q => negb (String.eqb q EmptyString) && all_digits q) ps = true ->
  release_go cur s = (digits_value cur p :: map (digits_value 0) ps, EmptyString).
Proof.
  induction s as [|c s IH]; intros cur p ps Hs Hp Hps.
  - cbn in Hs. injection Hs as <- <-. reflexivity.
  - cbn in Hs. destruct (Ascii.eqb_spec c "."%char) as [->|Hc].
    + injection Hs as <- <-.
      destruct (split_cons "."%char s) as (q & qs & Hq).
      rewrite Hq in Hps. cbn in Hps.
      apply andb_true_iff in Hps as [[Hne Hq1]%andb_true_iff Hqs].
      destruct s as [|d s']; [cbn in Hq; injection Hq as <- <-; discriminate|].
      assert (Hd : is_digit d = true).
      { cbn in Hq. destruct (Ascii.eqb_spec d "."%char) as [->|].
        - injection Hq as <- <-. discriminate.
        - destruct (split "."%char s') as [|f fs] eqn:Ef.
          + injection Hq as <- <-. now apply all_digits_head in Hq1.
          + injection Hq as <- <-. now apply all_digits_head in Hq1. }
      rewrite Hq. cbn [release_go]. cbn [is_digit]. 
      change (is_digit "."%char) with false. cbn iota.
      rewrite Ascii.eqb_refl, Hd.
      specialize (IH 0%N q qs Hq Hq1 Hqs).
      cbn [release_go] in IH. rewrite Hd in IH. rewrite IH. reflexivity.
    + destruct (split "."%char s) as [|f fs] eqn:Ef.
      * destruct (split_cons "."%char s) as (? & ? & ?); congruence.
      * injection Hs as <- <-.
        pose proof (all_digits_head _ _ Hp) as Hd.
        cbn [release_go]. rewrite Hd.
        cbn in Hp. apply andb_true_iff in Hp as [_ Hp].
        rewrite (IH _ f fs eq_refl Hp Hps). reflexivity.
Qed.

End VersionFacts.

Module ParseFacts.
Import Py Pep440 SpecVersion VersionFacts.

Lemma digit_range (c : ascii) :
  is_digit c = true <-> (48 <= nat_of_ascii c <= 57)%nat.
Proof.
  unfold is_digit. rewrite andb_true_iff, !Nat.leb_le. tauto.
Qed.

Lemma digit_not_space (c : ascii) : is_digit c = true -> is_space c = false.
Proof.
  intros H%digit_range. unfold is_space.
  repeat match goal with
         | |- context [(?a <=? ?b)%nat] => destruct (Nat.leb_spec a b)
         | |- context [(?a =? ?b)%nat] => destruct (Nat.eqb_spec a b)
         end; cbn; try reflexivity; lia.
Qed.

Lemma digit_lower (c : ascii) : is_digit c = true -> lower_char c = c.
Proof.
  intros H%digit_range. unfold lower_char.
  repeat match goal with
         | |- context [(?a <=? ?b)%nat] => destruct (Nat.leb_spec a b)
         end; cbn; try reflexivity; lia.
Qed.

Lemma digit_not_v (c : ascii) : is_digit c = true -> Ascii.eqb c "v"%char = false.
Proof.
  destruct (Ascii.eqb_spec c "v"%char) as [->|]; [discriminate|reflexivity].
Qed.

Lemma dotty_lower (s : string) : dotty s = true -> lower s = s.
Proof.
  induction s as [|c s IH]; cbn; [reflexivity|].
  intros [Hc Hs]%andb_true_iff. rewrite (IH Hs). f_equal.
  apply orb_true_iff in Hc as [Hc|Hc]; [now apply digit_lower|].
  apply Ascii.eqb_eq in Hc. now subst.
Qed.

(** What follows the leading digits of a dotty string is empty or starts
    with a dot. *)
Lemma span_digits_dotty (s : string) :
  dotty s = true ->
  snd (span_digits s) = EmptyString \/
  exists r, snd (span_digits s) = String "."%char r.
Proof.
  induction s as [|c s IH]; cbn; [now left|].
  intros [Hc Hs]%andb_true_iff.
  destruct (is_digit c) eqn:Ed.
  - destruct (span_digits s) as [d r]. cbn in *. auto.
  - cbn in Hc. apply Ascii.eqb_eq in Hc. subst. cbn. eauto.
Qed.

Lemma epoch_of_dotty (s : string) : dotty s = true -> epoch_of s = (0%N, s).
Proof.
  intros H. unfold epoch_of.
  destruct (span_digits_dotty s H) as [E|[r E]];
    destruct (span_digits s) as [d r']; cbn in E; subst;
    destruct d; reflexivity.
Qed.

Lemma parts_digits_dotty (s : string) :
  forallb all_digits (split "."%char s) = true -> dotty s = true.
Proof.
  induction s as [|c s IH]; [reflexivity|].
  cbn [split dotty]. destruct (Ascii.eqb_spec c "."%char) as [->|Hc].
  - cbn. exact IH.
  - destruct (split_cons "."%char s) as (p & ps & E). rewrite E in *.
    cbn. intros [[Hd Hp]%andb_true_iff Hps]%andb_true_iff.
    rewrite Hd. cbn. apply IH. cbn. now rewrite Hp, Hps.
Qed.

(** A well-formed dotted numeric string is read as the plain release with
    the same components. *)
Lemma parse_dotted_numeric (s : string) (a : list N) :
  dotted_numeric s = Some a -> parse_version s = Some (of_release a).
Proof.
  unfold dotted_numeric. 
  destruct (forallb _ (split "."%char s)) eqn:Hall; [|discriminate].
  intros [= <-].
  assert (Hdot : dotty s = true).
  { apply parts_digits_dotty. rewrite forallb_forall in *.
    intros p Hp. now apply Hall, andb_true_iff in Hp. }
  destruct (split_cons "."%char s) as (p & ps & Es).
  rewrite Es in Hall. cbn in Hall.
  apply andb_true_iff in Hall as [[Hne Hp]%andb_true_iff Hps].
  destruct s as [|d s'].
  { cbn in Es. injection Es as <- <-. discriminate. }
  assert (Hd : is_digit d = true).
  { cbn in Es. destruct (Ascii.eqb_spec d "."%char) as [->|].
    - injection Es as <- <-. discriminate.
    - destruct (split "."%char s'); injection Es as <- <-;
        now apply all_digits_head in Hp. }
  unfold parse_version.
  cbn [lstrip]. rewrite (digit_not_space d Hd).
  rewrite (dotty_lower _ Hdot).
  unfold drop_v. 
  replace (match String d s' with String "v" x => x | _ => String d s' end)
    with (String d s').
  2:{ pose proof (digit_not_v d Hd) as Hv.
      destruct d as [[] [] [] [] [] [] [] []]; try reflexivity; discriminate. }
  rewrite (epoch_of_dotty _ Hdot), Hd.
  rewrite (release_go_split _ 0%N p ps Es Hp Hps). rewrite Es. reflexivity.
Qed.

End ParseFacts.

Import Py Pep440 SpecVersion Iff.

(** C6. The ordering that decides which columns are added is numeric and
    field by field, not the ordering of the raw strings: two well-formed
    dotted numeric strings are parsed, and their versions compare as their
    numeric components do (a component that is not written counts as 0);
    the thresholds of the schema are the versions of "2.13" and "2.15";
    "2.9" comes strictly before "2.13", where string comparison says the
    opposite. *)
Theorem C6_version_order_numeric (s t : string) (a b : list N) :
  dotted_numeric s = Some a ->
  dotted_numeric t = Some b ->
  (exists v w,
      parse_version s = Some v /\ parse_version t = Some w /\
      Pep440.compare v w = semver_compare a b /\
      Pep440.ge v w = match semver_compare a b with Lt => false | _ => true end)
  /\ parse_version "2.13" = Some v2_13
  /\ parse_version "2.15" = Some v2_15
  /\ (exists v, parse_version "2.9" = Some v /\ Pep440.lt v v2_13 = true)
  /\ str_compare "2.9" "2.13" = Gt.
Proof.
  intros Hs Ht. split; [|repeat split; try reflexivity].
  - exists (of_release a), (of_release b).
    rewrite (ParseFacts.parse_dotted_numeric _ _ Hs).
    rewrite (ParseFacts.parse_dotted_numeric _ _ Ht).
    unfold Pep440.ge. rewrite VersionFacts.compare_of_release. auto.
  - eexists. split; reflexivity.
Qed.

Lemma C6_witness :
  exists v w,
    parse_version "2.9.0" = Some v /\ parse_version "2.13" = Some w /\
    Pep440.compare v w = Lt /\ Pep440.ge v w = false.
Proof.
  destruct (C6_version_order_numeric "2.9.0" "2.13" [2; 9; 0]%N [2; 13]%N
              eq_refl eq_refl) as [H _].
  exact H.
Defined.

(** ** The schema table *)

Module SchemaFacts.

Lemma In_existsb (x : string) (l : list string) :
  In x l <-> existsb (String.eqb x) l = true.
Proof.
  rewrite existsb_exists. split.
  - intros H. exists x. split; [assumption|apply String.eqb_refl].
  - intros (y & Hy & E). apply String.eqb_eq in E. now subst.
Qed.

Lemma In_iff_bool (x : string) (l : list string) (b : bool) :
  existsb (String.eqb x) l = b -> (In x l <-> b = true).
Proof. intros <-. apply In_existsb. Qed.

(** The table after the version tests, by cases on the two tests. *)
Lemma cols_cases (v : version) :
  cols v =
  if Pep440.ge v v2_13 then
    if Pep440.ge v v2_15 then dict_extend cols_2_13 3 fields_2_15 else cols_2_13
  else if Pep440.ge v v2_15 then dict_extend base_cols 3 fields_2_15
       else base_cols.
Proof.
  unfold cols. now destruct (Pep440.ge v v2_13), (Pep440.ge v v2_15).
Qed.

End SchemaFacts.

(** C2. Whatever the detected version [v]: the columns of record types
    2, 3 and 4 contain [modeSCode] exactly when [v >= 2.13]; the columns of
    record type 3 contain each of the five fields of 2.15 exactly when
    [v >= 2.15]; and for every record type the columns are the base columns
    followed by the added ones, so that nothing is removed or moved. *)
Theorem C2_schema_version_gates (v : version) :
  Forall (fun rt =>
            exists names, dict_get (cols v) rt = Some names /\
              (In "modeSCode" names <-> Pep440.ge v v2_13 = true))
         [2; 3; 4]
  /\ (exists names, dict_get (cols v) 3 = Some names /\
        Forall (fun f => In f names <-> Pep440.ge v v2_15 = true)
          ["sensorTrackNumberList"; "spi"; "dvs"; "dupM3a"; "tid"])
  /\ Forall (fun '(rt, base) =>
               exists extra, dict_get (cols v) rt = Some (base ++ extra)%list)
            base_cols.
Proof.
  rewrite SchemaFacts.cols_cases.
  destruct (Pep440.ge v v2_13), (Pep440.ge v v2_15).
  all: split; [|split].
  all: try (repeat apply Forall_cons; try apply Forall_nil;
            (eexists; split; [reflexivity|];
             apply SchemaFacts.In_iff_bool; vm_compute; reflexivity)).
  all: try (eexists; split; [reflexivity|];
            repeat apply Forall_cons; try apply Forall_nil;
            apply SchemaFacts.In_iff_bool; vm_compute; reflexivity).
  all: repeat apply Forall_cons; try apply Forall_nil.
  all: eexists; reflexivity.
Qed.

(** ** The call and the world *)

Module RunFacts.

Lemma for_each_collect (filename : string) (lines : list string) (w : world)
    (cols : dict (list string)) (lrt : list Z) (cs : option (list string))
    (chunksize : Z) (rts : list Z) :
  lookup_file filename (files w) = Some lines ->
  forall acc,
    for_each rts
      (fun data_frames record_type =>
         bind (lift (or_raise (KeyError_int record_type) (dict_get cols record_type)))
           (fun names =>
         bind (pd_read_csv filename (skiprows_for lrt record_type) names chunksize)
           (fun chunks =>
         bind (lift (assemble names cs chunks))
           (fun df => ret (dict_set data_frames record_type df)))))
      acc w
    = (collect (extract cols lines lrt cs chunksize) rts acc, w).
Proof.
  intros Hf. induction rts as [|rt rts IH]; intros acc; [reflexivity|].
  cbn [for_each collect]. unfold bind at 1. unfold extract at 1.
  unfold bind, lift, pd_read_csv, ret. rewrite Hf. cbn [or_raise rbind].
  destruct (dict_get cols rt) as [names|]; cbn [or_raise rbind]; [|reflexivity].
  destruct (Pd.read_csv lines (skiprows_for lrt rt) names chunksize) as [chunks|e];
    cbn [rbind]; [|reflexivity].
  destruct (assemble names cs chunks) as [df|e]; [|reflexivity].
  apply IH.
Qed.

(** [read_iff_file] returns what [decode] computes from the lines of the
    file, and hands the world back as it found it. *)
Lemma read_iff_file_decode (filename : string) (chunksize : Z) (w : world) :
  read_iff_file filename chunksize w =
  (match lookup_file filename (files w) with
   | Some lines => decode lines (record_types_obj w) (callsigns_obj w) chunksize
   | None => Raise FileNotFoundError
   end, w).
Proof.
  unfold read_iff_file, decode, detect_version.
  unfold bind at 1. unfold open_readline.
  destruct (lookup_file filename (files w)) as [lines|] eqn:Hf; [|reflexivity].
  unfold bind at 1. unfold lift at 1.
  destruct (nth_error (split_comma (hd EmptyString lines)) 2) as [field|];
    cbn [or_raise rbind]; [|reflexivity].
  unfold bind at 1. unfold lift at 1.
  destruct (parse_version field) as [version|]; cbn [or_raise rbind]; [|reflexivity].
  unfold bind at 1. unfold open_lines. rewrite Hf. cbn [or_raise].
  unfold bind at 1. unfold lift at 1.
  destruct (rmap line_record_type lines) as [lrt|]; cbn [rbind]; [|reflexivity].
  unfold bind at 1. unfold arg_record_types.
  destruct (record_types_obj w) as [|l|c]; cbn [requested].
  all: unfold bind at 1; unfold arg_callsigns.
  all: unfold bind at 1; erewrite for_each_collect by exact Hf.
  all: match goal with
       | |- context [collect ?f ?l ?a] => destruct (collect f l a) as [d|e]
       end; cbn [rbind]; try reflexivity.
  unfold bind, lift, ret. cbn [nth_error or_raise].
  destruct (dict_get d c); reflexivity.
Qed.

End RunFacts.


(** ** Dictionaries, [numpy.unique] and the loop over record types *)

Module DictFacts.

Lemma dict_set_keys {V} (d : dict V) (k : Z) (v : V) (c : Z) :
  In c (map fst (dict_set d k v)) <-> In c (map fst d) \/ c = k.
Proof.
  induction d as [|[k' v'] d IH]; cbn.
  - intuition.
  - destruct (Z.eqb_spec k' k); cbn; [subst|rewrite IH]; intuition.
Qed.

Lemma dict_set_notin {V} (d : dict V) (k : Z) (v : V) :
  ~ In k (map fst d) -> map fst (dict_set d k v) = (map fst d ++ [k])%list.
Proof.
  induction d as [|[k' v'] d IH]; cbn; [reflexivity|].
  intros H. destruct (Z.eqb_spec k' k); [tauto|].
  cbn. f_equal. apply IH. tauto.
Qed.

Lemma dict_set_in {V} (d : dict V) (k : Z) (v : V) :
  In k (map fst d) -> map fst (dict_set d k v) = map fst d.
Proof.
  induction d as [|[k' v'] d IH]; cbn; [tauto|].
  intros H. destruct (Z.eqb_spec k' k); [reflexivity|].
  cbn. f_equal. apply IH. intuition.
Qed.

Lemma dict_set_NoDup {V} (d : dict V) (k : Z) (v : V) :
  NoDup (map fst d) -> NoDup (map fst (dict_set d k v)).
Proof.
  intros H. destruct (in_dec Z.eq_dec k (map fst d)) as [Hin|Hout].
  - now rewrite dict_set_in.
  - rewrite dict_set_notin by assumption.
    apply NoDup_app; [assumption|repeat constructor; intros []|].
    intros x Hx [->|[]]. tauto.
Qed.

Lemma dict_set_entries {V} (d : dict V) (k : Z) (v : V) (c : Z) (x : V) :
  In (c, x) (dict_set d k v) -> In (c, x) d \/ (c = k /\ x = v).
Proof.
  induction d as [|[k' v'] d IH]; cbn.
  - intros [[= <- <-]|[]]. auto.
  - destruct (Z.eqb_spec k' k); cbn.
    + intros [[= <- <-]|H]; auto.
    + intros [H|H]; auto. apply IH in H. tauto.
Qed.

Lemma dict_get_set_eq {V} (d : dict V) (k : Z) (v : V) :
  dict_get (dict_set d k v) k = Some v.
Proof.
  induction d as [|[k' v'] d IH]; cbn.
  - now rewrite Z.eqb_refl.
  - destruct (Z.eqb_spec k' k) as [->|Hne]; cbn.
    + now rewrite Z.eqb_refl.
    + destruct (Z.eqb_spec k' k); [contradiction|assumption].
Qed.

Lemma dict_get_In {V} (d : dict V) (k : Z) (v : V) :
  dict_get d k = Some v -> In (k, v) d.
Proof.
  induction d as [|[k' v'] d IH]; cbn; [discriminate|].
  destruct (Z.eqb_spec k' k) as [->|]; [intros [= ->]; auto|auto].
Qed.

Lemma In_dict_get {V} (d : dict V) (k : Z) :
  In k (map fst d) -> exists v, dict_get d k = Some v.
Proof.
  induction d as [|[k' v'] d IH]; cbn; [tauto|].
  destruct (Z.eqb_spec k' k); [eauto|]. intros [?|H]; [contradiction|auto].
Qed.

(** What the loop leaves in [data_frames]. *)
Lemma collect_spec (f : Z -> result Pd.frame) (l : list Z) :
  forall acc d, collect f l acc = Ok d ->
    (forall c, In c (map fst d) <-> In c (map fst acc) \/ In c l) /\
    (NoDup (map fst acc) -> NoDup (map fst d)) /\
    (forall c df, In (c, df) d -> In (c, df) acc \/ (In c l /\ f c = Ok df)) /\
    (NoDup (map fst acc ++ l) -> map fst d = (map fst acc ++ l)%list).
Proof.
  induction l as [|rt l IH]; intros acc d H; cbn in H.
  - injection H as <-. rewrite app_nil_r. cbn. intuition.
  - destruct (f rt) as [df|] eqn:Ef; cbn in H; [|discriminate].
    destruct (IH _ _ H) as (Hk & Hn & He & Ho). repeat split.
    + intros Hc. apply Hk in Hc as [Hc|Hc]; [|cbn; auto].
      apply dict_set_keys in Hc as [Hc| ->]; cbn; auto.
    + intros [Hc|[<-|Hc]]; apply Hk; [left|left|right; assumption];
        apply dict_set_keys; auto.
    + intros Hnd. now apply Hn, dict_set_NoDup.
    + intros c x Hc. apply He in Hc as [Hc|[Hc Hf]]; [|cbn; auto].
      apply dict_set_entries in Hc as [Hc|[-> ->]]; cbn; auto.
    + intros Hnd.
      assert (Hout : ~ In rt (map fst acc)).
      { intros Hin. apply NoDup_remove_2 in Hnd. apply Hnd.
        apply in_or_app. auto. }
      rewrite Ho; rewrite dict_set_notin by assumption;
        rewrite <- app_assoc; [reflexivity|exact Hnd].
Qed.

(** The loop fails as soon as one record type fails. *)
Lemma collect_raise (f : Z -> result Pd.frame) (l : list Z) (c : Z) :
  In c l -> (exists e, f c = Raise e) ->
  forall acc, exists e, collect f l acc = Raise e.
Proof.
  intros Hin [e He]. induction l as [|rt l IH]; [destruct Hin|].
  intros acc. cbn. destruct (f rt) as [df|e'] eqn:Ef; cbn; [|eauto].
  destruct Hin as [->|Hin]; [congruence|]. apply IH, Hin.
Qed.

Lemma insert_unique_In (x y : Z) (l : list Z) :
  In y (Pd.insert_unique x l) <-> y = x \/ In y l.
Proof.
  induction l as [|z l IH]; cbn; [intuition|].
  destruct (Z.compare_spec x z); cbn; [subst|..]; try rewrite IH; intuition.
Qed.

Lemma insert_unique_sorted (x : Z) (l : list Z) :
  StronglySorted Z.lt l -> StronglySorted Z.lt (Pd.insert_unique x l).
Proof.
  induction 1 as [|z l Hs IH Hz]; cbn; [repeat constructor|].
  destruct (Z.compare_spec x z).
  - now constructor.
  - constructor; [now constructor|].
    constructor; [assumption|].
    eapply Forall_impl; [|exact Hz]. intros; lia.
  - constructor; [assumption|].
    rewrite Forall_forall in *. intros y [->|Hy]%insert_unique_In; auto.
Qed.

Lemma unique_sorted (l : list Z) : StronglySorted Z.lt (Pd.unique l).
Proof.
  induction l; cbn; [constructor|now apply insert_unique_sorted].
Qed.

Lemma unique_In (l : list Z) (x : Z) : In x (Pd.unique l) <-> In x l.
Proof.
  induction l as [|y l IH]; cbn; [tauto|].
  rewrite insert_unique_In, IH. intuition.
Qed.

Lemma sorted_NoDup (l : list Z) : StronglySorted Z.lt l -> NoDup l.
Proof.
  induction 1 as [|x l Hs IH Hx]; constructor; [|assumption].
  intros Hin. rewrite Forall_forall in Hx. specialize (Hx _ Hin). lia.
Qed.

End DictFacts.

(** The result of a call for one record type. *)
Lemma decode_scalar (lines : list string) (c : Z) (cs : callsigns_arg) (k : Z)
    (out : output) :
  decode lines (Scalar c) cs k = Ok out <->
  exists v lrt df,
    detect_version lines = Ok v /\ rmap line_record_type lines = Ok lrt /\
    extract (cols v) lines lrt (callsign_list cs) k c = Ok df /\ out = Single df.
Proof.
  unfold decode. split.
  - destruct (detect_version lines) as [v|]; cbn; [|discriminate].
    destruct (rmap line_record_type lines) as [lrt|]; cbn; [|discriminate].
    destruct (extract _ _ _ _ _ c) as [df|] eqn:E; cbn; [|discriminate].
    rewrite Z.eqb_refl. cbn. intros [= <-]. exists v, lrt, df. auto.
  - intros (v & lrt & df & -> & -> & E & ->). cbn. rewrite E. cbn.
    now rewrite Z.eqb_refl.
Qed.

(** C1. The shape of the result follows the shape of the request: for one
    code, the frame of that code; for a list of codes, a dictionary whose
    keys are the requested codes; for ['all'], a dictionary whose keys are
    the distinct record types of the lines of the file in ascending order.
    In a dictionary each code is bound to the frame of that code. *)
Theorem C1_result_shape (lines : list string) (record_types : record_types_arg)
    (cs : callsigns_arg) (k : Z) (out : output) :
  decode lines record_types cs k = Ok out ->
  exists v lrt,
    detect_version lines = Ok v /\ rmap line_record_type lines = Ok lrt /\
    let frame_of c df := extract (cols v) lines lrt (callsign_list cs) k c = Ok df in
    match record_types with
    | Scalar c => exists df, out = Single df /\ frame_of c df
    | Codes l =>
        exists d, out = Mapping d /\ NoDup (map fst d) /\
          (forall c, In c (map fst d) <-> In c l) /\
          (forall c df, In (c, df) d -> frame_of c df)
    | All =>
        exists d, out = Mapping d /\ map fst d = Pd.unique lrt /\
          StronglySorted Z.lt (map fst d) /\
          (forall c, In c (map fst d) <-> In c lrt) /\
          (forall c df, In (c, df) d -> frame_of c df)
    end.
Proof.
  intros H. destruct record_types as [|l|c].
  - unfold decode in H.
    destruct (detect_version lines) as [v|]; cbn in H; [|discriminate].
    destruct (rmap line_record_type lines) as [lrt|]; cbn in H; [|discriminate].
    destruct (collect _ _ _) as [d|] eqn:E; cbn in H; [|discriminate].
    injection H as <-. exists v, lrt. repeat split; try reflexivity.
    destruct (DictFacts.collect_spec _ _ _ _ E) as (Hk & Hn & He & Ho).
    cbn in Ho. pose proof (DictFacts.unique_sorted lrt) as Hs.
    specialize (Ho (DictFacts.sorted_NoDup _ Hs)).
    exists d. repeat split; try assumption.
    + now rewrite Ho.
    + rewrite Ho. apply DictFacts.unique_In.
    + rewrite Ho. apply DictFacts.unique_In.
    + intros c df Hin. apply He in Hin as [[]|[_ Hf]]. exact Hf.
  - unfold decode in H.
    destruct (detect_version lines) as [v|]; cbn in H; [|discriminate].
    destruct (rmap line_record_type lines) as [lrt|]; cbn in H; [|discriminate].
    destruct (collect _ _ _) as [d|] eqn:E; cbn in H; [|discriminate].
    injection H as <-. exists v, lrt. repeat split; try reflexivity.
    destruct (DictFacts.collect_spec _ _ _ _ E) as (Hk & Hn & He & Ho).
    exists d. repeat split.
    + apply Hn. constructor.
    + intros Hc. apply Hk in Hc as [[]|Hc]. exact Hc.
    + intros Hc. apply Hk. now right.
    + intros c df Hin. apply He in Hin as [[]|[_ Hf]]. exact Hf.
  - apply decode_scalar in H as (v & lrt & df & Hv & Hl & E & ->).
    exists v, lrt. repeat split; try assumption. exists df. auto.
Qed.

(** ** What [read_csv] reads *)

Module CsvFacts.
Import Pd.

Lemma rmap_ok_cons {A B} (f : A -> result B) (x : A) (l : list A) (ys : list B) :
  rmap f (x :: l) = Ok ys ->
  exists y ys', f x = Ok y /\ rmap f l = Ok ys' /\ ys = y :: ys'.
Proof.
  cbn. destruct (f x) as [y|]; cbn; [|discriminate].
  destruct (rmap f l) as [ys'|]; cbn; [|discriminate].
  intros [= <-]. eauto.
Qed.

Lemma skip_from_ge (s : nat) (lrt : list Z) (rt : Z) (i : nat) :
  In i (skip_from s lrt rt) -> (s <= i)%nat.
Proof.
  unfold skip_from. intros ((j & c) & <- & Hin)%in_map_iff.
  apply filter_In in Hin as [Hin _]. apply in_combine_l in Hin.
  apply in_seq in Hin. cbn. lia.
Qed.

Lemma existsb_nat_In (i : nat) (l : list nat) :
  existsb (Nat.eqb i) l = true <-> In i l.
Proof.
  rewrite existsb_exists. split.
  - intros (j & Hj & E). apply Nat.eqb_eq in E. now subst.
  - intros H. exists i. split; [assumption|apply Nat.eqb_refl].
Qed.

Lemma kept_from (rt : Z) (lines : list string) :
  forall lrt s pre,
    rmap line_record_type lines = Ok lrt ->
    (forall i, In i pre -> (i < s)%nat) ->
    map snd (filter (fun '(i, _) => negb (existsb (Nat.eqb i) (pre ++ skip_from s lrt rt)))
               (combine (seq s (length lines)) lines))
    = target_lines lines rt.
Proof.
  induction lines as [|line lines IH]; intros lrt s pre Hl Hpre; [reflexivity|].
  apply rmap_ok_cons in Hl as (c & lrt' & Hc & Hl & ->).
  cbn [length seq combine filter target_lines]. rewrite Hc.
  assert (Hskip : skip_from s (c :: lrt') rt =
                  ((if c =? rt then [] else [s]) ++ skip_from (S s) lrt' rt)%list).
  { unfold skip_from. cbn. now destruct (c =? rt). }
  rewrite Hskip, app_assoc.
  assert (Hhead : existsb (Nat.eqb s)
                    ((pre ++ (if c =? rt then [] else [s])) ++ skip_from (S s) lrt' rt)
                  = negb (c =? rt)).
  { destruct (c =? rt); cbn.
    - apply not_true_is_false. rewrite existsb_nat_In, in_app_iff, in_app_iff.
      intros [[H|[]]|H]; [apply Hpre in H|apply skip_from_ge in H]; lia.
    - apply existsb_nat_In. rewrite !in_app_iff. cbn. auto. }
  rewrite Hhead, negb_involutive.
  assert (Htail :
            map snd (filter (fun '(i, _) =>
                       negb (existsb (Nat.eqb i)
                               ((pre ++ (if c =? rt then [] else [s]))
                                ++ skip_from (S s) lrt' rt)))
                       (combine (seq (S s) (length lines)) lines))
            = target_lines lines rt).
  { apply IH; [assumption|]. intros i [H|H]%in_app_iff.
    - apply Hpre in H. lia.
    - destruct (c =? rt); cbn in H; [destruct H|destruct H as [<-|[]]; lia]. }
  destruct (c =? rt); cbn [map snd]; now rewrite Htail.
Qed.

(** After [skiprows], [read_csv] is left with the lines of the record
    type. *)
Lemma kept_lines (rt : Z) (lines : list string) (lrt : list Z) :
  rmap line_record_type lines = Ok lrt ->
  map snd (filter (fun '(i, _) => negb (existsb (Nat.eqb i) (skiprows_for lrt rt)))
             (enumerate lines))
  = target_lines lines rt.
Proof.
  intros H. exact (kept_from rt lines lrt 0%nat [] H (fun i (F : In i []) => match F with end)).
Qed.

Lemma read_csv_target (rt : Z) (lines : list string) (lrt : list Z)
    (names : list string) (k : Z) :
  rmap line_record_type lines = Ok lrt ->
  read_csv lines (skiprows_for lrt rt) names k =
  if k <? 1 then Raise ValueError
  else Ok (chunk_frames names k (map Py.split_comma (target_lines lines rt))).
Proof.
  intros H. unfold read_csv. destruct (k <? 1); [reflexivity|].
  replace (map (fun '(_, line) => Py.split_comma line)
             (filter (fun '(i, _) => negb (existsb (Nat.eqb i) (skiprows_for lrt rt)))
                (enumerate lines)))
    with (map Py.split_comma (target_lines lines rt)).
  - unfold chunk_frames. now destruct (map Py.split_comma (target_lines lines rt)).
  - rewrite <- (kept_lines rt lines lrt H), map_map.
    apply map_ext. now intros [i line].
Qed.

End CsvFacts.

Module ChunkFacts.
Import Pd CsvFacts.

Lemma chunks_fuel_concat {A} (k : nat) : (1 <= k)%nat ->
  forall fuel (l : list A), (length l <= fuel)%nat ->
    List.concat (chunks_fuel fuel k l) = l.
Proof.
  intros Hk. induction fuel as [|fuel IH]; intros l Hl.
  - destruct l; [reflexivity|cbn in Hl; lia].
  - destruct l as [|x l]; [reflexivity|].
    cbn [chunks_fuel List.concat]. rewrite IH.
    + apply firstn_skipn.
    + rewrite length_skipn. cbn [length] in *. lia.
Qed.

Lemma chunks_of_concat {A} (k : nat) (l : list A) :
  (1 <= k)%nat -> List.concat (chunks_of k l) = l.
Proof. intros Hk. now apply chunks_fuel_concat. Qed.

Lemma concat_read_chunks (names : list string) (width : nat)
    (chunks : list (list (list string))) :
  concat names (map (read_chunk names width) chunks) =
  if wide width chunks then Ok (mkFrame names (flat_map (typed names) chunks))
  else Raise ParserError.
Proof.
  induction chunks as [|ch chunks IH]; [reflexivity|].
  cbn [map concat wide forallb flat_map]. unfold read_chunk at 1.
  destruct (max_width ch <? width)%nat; cbn [negb andb rbind]; [reflexivity|].
  rewrite IH. fold (wide width chunks).
  destruct (wide width chunks); reflexivity.
Qed.

Lemma gather_all (names : list string) (k : Z) (data : list (list string)) :
  gather names None (chunk_frames names k data) =
  if parser_accepts names k data then Ok (mkFrame names (raw_rows names k data))
  else Raise ParserError.
Proof.
  unfold gather, chunk_frames, parser_accepts, raw_rows.
  destruct data as [|first data]; [reflexivity|].
  apply concat_read_chunks.
Qed.

Lemma chunk_frames_named (names : list string) (k : Z) (data : list (list string)) :
  named names (chunk_frames names k data).
Proof.
  unfold named, chunk_frames. destruct data as [|first data].
  - repeat constructor.
  - apply Forall_forall. intros c (ch & <- & _)%in_map_iff.
    unfold read_chunk. now destruct (_ <? _)%nat.
Qed.

(** Selecting in every chunk and concatenating is selecting in the
    concatenation. *)
Lemma gather_select (names : list string) (j : nat) (cs : list string)
    (chunks : list (result frame)) :
  index_of "AcId" names = Some j ->
  named names chunks ->
  gather names (Some cs) chunks =
  rbind (gather names None chunks)
    (fun df => Ok (mkFrame names (filter (keep j cs) (rows df)))).
Proof.
  intros Hj. unfold gather. induction 1 as [|c chunks Hc _ IH]; [reflexivity|].
  cbn [map concat]. destruct c as [df|e]; cbn [rbind]; [|reflexivity].
  unfold select_isin at 1. rewrite Hc, Hj. cbn [rbind]. rewrite IH.
  destruct (concat names chunks) as [rest|e]; cbn [rbind rows]; [|reflexivity].
  now rewrite filter_app.
Qed.

(** Without an [AcId] column the selection raises on the first chunk the
    parser accepts. *)
Lemma gather_no_acid (names : list string) (cs : list string) (k : Z)
    (data : list (list string)) :
  index_of "AcId" names = None ->
  exists e, gather names (Some cs) (chunk_frames names k data) = Raise e /\
            (parser_accepts names k data = true -> (1 <= k) -> e = KeyError_str "AcId").
Proof.
  intros Hj. unfold gather, chunk_frames, parser_accepts.
  destruct data as [|first data].
  - cbn. unfold select_isin. cbn. rewrite Hj. cbn. eauto.
  - set (w := Nat.max _ _). unfold chunks_of. cbn [length chunks_fuel].
    cbn [map concat wide forallb]. unfold read_chunk at 1.
    destruct (max_width _ <? w)%nat; cbn [rbind negb andb].
    + eexists. split; [reflexivity|discriminate].
    + unfold select_isin at 1. cbn [columns]. rewrite Hj. cbn [rbind]. eauto.
Qed.

Lemma typed_rows_of (names : list string) (chunk sub : list (list string)) :
  incl sub chunk ->
  Forall2 (fun row fields =>
             In fields chunk /\ row = map (cell_of chunk fields) (seq 0 (length names)))
    (map (fun row => map (cell_of chunk row) (seq 0 (length names))) sub) sub.
Proof.
  induction sub as [|x sub IH]; intros Hsub; cbn; constructor.
  - split; [apply Hsub; now left|reflexivity].
  - apply IH. intros y Hy. apply Hsub. now right.
Qed.

Lemma flat_typed_rows (names : list string) (data : list (list string))
    (chunks : list (list (list string))) :
  (forall ch, In ch chunks -> incl ch data) ->
  Forall2 (row_of names data) (flat_map (typed names) chunks) (List.concat chunks).
Proof.
  induction chunks as [|ch chunks IH]; intros Hin; cbn; [constructor|].
  apply Forall2_app.
  - eapply Forall2_impl; [|apply (typed_rows_of names ch ch), incl_refl].
    intros row fields [H ->]. exists ch. split; [assumption|].
    split; [apply Hin; now left|reflexivity].
  - apply IH. intros c Hc. apply Hin. now right.
Qed.

Lemma raw_rows_of (names : list string) (k : Z) (data : list (list string)) :
  1 <= k -> Forall2 (row_of names data) (raw_rows names k data) data.
Proof.
  intros Hk. unfold raw_rows.
  assert (Hc : List.concat (chunks_of (Z.to_nat k) data) = data)
    by (apply chunks_of_concat; lia).
  rewrite <- Hc at 3.
  apply flat_typed_rows. intros ch Hch row Hrow.
  rewrite <- Hc. apply in_concat. eauto.
Qed.

End ChunkFacts.

(** ** Renaming and conversions, row by row *)

Module NormFacts.
Import Pd CsvFacts ChunkFacts.

Lemma rmap_Forall2 {A B} (f : A -> result B) (l : list A) (ys : list B) :
  rmap f l = Ok ys <-> Forall2 (fun x y => f x = Ok y) l ys.
Proof.
  revert ys. induction l as [|x l IH]; intros ys; cbn.
  - split; [intros [= <-]; constructor|inversion 1; reflexivity].
  - split.
    + destruct (f x) as [y|] eqn:E; cbn; [|discriminate].
      destruct (rmap f l) as [ys'|]; cbn; [|discriminate].
      intros [= <-]. constructor; [assumption|]. now apply IH.
    + inversion 1 as [|? y ? ys' Hy Hys]; subst. rewrite Hy. cbn.
      apply IH in Hys. now rewrite Hys.
Qed.

Lemma rmap_length {A B} (f : A -> result B) (l : list A) (ys : list B) :
  rmap f l = Ok ys -> length ys = length l.
Proof. intros H%rmap_Forall2. symmetry. eapply Forall2_length, H. Qed.

Lemma rmap_map {A B} (f : A -> result B) (g : B -> B) (l : list A) :
  rbind (rmap f l) (fun ys => Ok (map g ys)) =
  rmap (fun x => rbind (f x) (fun y => Ok (g y))) l.
Proof.
  induction l as [|x l IH]; [reflexivity|]. cbn.
  destruct (f x) as [y|]; cbn; [|reflexivity].
  rewrite <- IH. destruct (rmap f l); reflexivity.
Qed.

Lemma rmap_pure {A B} (g : A -> B) (l : list A) :
  rmap (fun x => Ok (g x)) l = Ok (map g l).
Proof.
  induction l as [|x l IH]; [reflexivity|]. cbn. now rewrite IH.
Qed.

(** A traversal that succeeds on a list succeeds on any selection of it,
    with the selected results. *)
Lemma rmap_filter {A B} (f : A -> result B) (p : A -> bool) (q : B -> bool)
    (l : list A) (ys : list B) :
  (forall x y, f x = Ok y -> q y = p x) ->
  rmap f l = Ok ys ->
  rmap f (filter p l) = Ok (filter q ys).
Proof.
  intros Hpq H%rmap_Forall2. induction H as [|x y l ys Hxy _ IH]; [reflexivity|].
  cbn. rewrite (Hpq _ _ Hxy). destruct (p x); [|assumption].
  cbn. now rewrite Hxy, IH.
Qed.

Lemma nth_error_update_nth {A} (f : A -> A) (l : list A) (j i : nat) :
  nth_error (update_nth j f l) i =
  if (i =? j)%nat then option_map f (nth_error l i) else nth_error l i.
Proof.
  revert j i. induction l as [|x l IH]; intros j i.
  - destruct j, i; cbn; try reflexivity. now destruct (i =? j)%nat.
  - destruct j, i; cbn; try reflexivity. apply IH.
Qed.

Lemma length_update_nth {A} (f : A -> A) (l : list A) (j : nat) :
  length (update_nth j f l) = length l.
Proof.
  revert j. induction l as [|x l IH]; intros [|j]; cbn; auto.
Qed.


Lemma index_of_nth (name : string) (l : list string) (j : nat) :
  index_of name l = Some j -> nth_error l j = Some name.
Proof.
  revert j. induction l as [|c l IH]; intros j; cbn; [discriminate|].
  destruct (String.eqb_spec c name) as [->|].
  - now intros [= <-].
  - destruct (index_of name l); cbn; [|discriminate].
    intros [= <-]. now apply IH.
Qed.

Lemma index_of_lt (name : string) (l : list string) (j : nat) :
  index_of name l = Some j -> (j < length l)%nat.
Proof.
  intros H%index_of_nth. apply nth_error_Some. congruence.
Qed.

Lemma normalise_rows (df : frame) :
  let names := map renamed (columns df) in
  normalise df =
  rbind (rmap (norm_row (index_of "time" names) (index_of "altitude" names)) (rows df))
    (fun rs => Ok (mkFrame names rs)).
Proof.
  cbn zeta. unfold normalise, has_column, to_datetime, imul100, norm_row.
  change (columns (rename renames df)) with (map renamed (columns df)).
  change (rows (rename renames df)) with (rows df).
  set (names := map renamed (columns df)).
  destruct (index_of "time" names) as [jt|] eqn:Et.
  - destruct (index_of "altitude" names) as [ja|] eqn:Ea.
    + rewrite <- rmap_map.
      match goal with |- context [rmap ?f (rows df)] => destruct (rmap f (rows df)) end;
        cbn; [rewrite Ea|]; reflexivity.
    + rewrite <- rmap_map.
      match goal with |- context [rmap ?f (rows df)] => destruct (rmap f (rows df)) end;
        cbn; [rewrite Ea, map_id|]; reflexivity.
  - cbn [rbind]. change (columns (rename renames df)) with names.
    destruct (index_of "altitude" names) as [ja|] eqn:Ea.
    + rewrite (rmap_pure (update_nth ja times100)). reflexivity.
    + rewrite (rmap_pure (fun row => row)), map_id. cbn.
      now destruct df.
Qed.

End NormFacts.

(** ** The loop body for one record type *)

Module ExtractFacts.
Import Pd CsvFacts ChunkFacts NormFacts.

Lemma opt_nat_eqb_eq (a b : option nat) : opt_nat_eqb a b = true -> a = b.
Proof.
  destruct a, b; cbn; try discriminate; try reflexivity.
  now intros ->%Nat.eqb_eq.
Qed.

Lemma cols_schema_ok (v : version) :
  forallb (fun '(_, names) => schema_ok names) (cols v) = true.
Proof.
  rewrite SchemaFacts.cols_cases.
  destruct (Pep440.ge v v2_13), (Pep440.ge v v2_15); vm_compute; reflexivity.
Qed.

Lemma schema_indices (v : version) (rt : Z) (names : list string) :
  dict_get (cols v) rt = Some names ->
  index_of "time" (map renamed names) = index_of "recTime" names /\
  index_of "altitude" (map renamed names) = index_of "alt" names /\
  index_of "callsign" (map renamed names) = index_of "AcId" names.
Proof.
  intros H%DictFacts.dict_get_In.
  pose proof (cols_schema_ok v) as Hall. rewrite forallb_forall in Hall.
  specialize (Hall _ H). cbn in Hall. unfold schema_ok in Hall.
  apply andb_true_iff in Hall as [[H1 H2]%andb_true_iff H3].
  auto using opt_nat_eqb_eq.
Qed.

(** The record types without aircraft identifier, and where they keep the
    time. *)
Lemma cols_without_acid (v : version) (rt : Z) :
  In rt [0; 1; 5; 6] ->
  exists names,
    dict_get (cols v) rt = Some names /\ index_of "AcId" names = None /\
    index_of "alt" names = None /\
    (index_of "recTime" names = None \/
     (rt = 6 /\ index_of "recTime" names = Some 1%nat)).
Proof.
  rewrite SchemaFacts.cols_cases.
  intros [<-|[<-|[<-|[<-|[]]]]];
    destruct (Pep440.ge v v2_13), (Pep440.ge v v2_15);
    (eexists; split; [reflexivity|]; vm_compute; auto).
Qed.

Section OneRecordType.
Variables (cols : dict (list string)) (lines : list string) (lrt : list Z)
          (rt : Z) (names : list string) (k : Z).
Hypothesis Hlrt : rmap line_record_type lines = Ok lrt.
Hypothesis Hnames : dict_get cols rt = Some names.

Lemma extract_gather (cs : option (list string)) :
  extract cols lines lrt cs k rt =
  if k <? 1 then Raise ValueError
  else rbind (gather names cs (chunk_frames names k (data_of lines rt))) normalise.
Proof.
  unfold extract. rewrite Hnames. cbn [or_raise rbind].
  rewrite (read_csv_target rt lines lrt names k Hlrt).
  destruct (k <? 1); reflexivity.
Qed.

Lemma extract_none :
  extract cols lines lrt None k rt =
  if k <? 1 then Raise ValueError
  else if parser_accepts names k (data_of lines rt) then
         rbind (rmap (nrow names) (raw_rows names k (data_of lines rt)))
           (fun rs => Ok (mkFrame (map renamed names) rs))
       else Raise ParserError.
Proof.
  rewrite extract_gather. destruct (k <? 1); [reflexivity|].
  rewrite gather_all. destruct (parser_accepts _ _ _); [|reflexivity].
  cbn [rbind]. now rewrite normalise_rows.
Qed.

Lemma extract_some (S : list string) (j : nat) :
  index_of "AcId" names = Some j ->
  extract cols lines lrt (Some S) k rt =
  if k <? 1 then Raise ValueError
  else if parser_accepts names k (data_of lines rt) then
         rbind (rmap (nrow names)
                  (filter (keep j S) (raw_rows names k (data_of lines rt))))
           (fun rs => Ok (mkFrame (map renamed names) rs))
       else Raise ParserError.
Proof.
  intros Hj. rewrite extract_gather. destruct (k <? 1); [reflexivity|].
  rewrite (gather_select names j S _ Hj (chunk_frames_named _ _ _)).
  rewrite gather_all. destruct (parser_accepts _ _ _); [|reflexivity].
  cbn [rbind]. now rewrite normalise_rows.
Qed.

Lemma extract_some_no_acid (S : list string) :
  index_of "AcId" names = None ->
  exists e, extract cols lines lrt (Some S) k rt = Raise e /\
    (1 <= k -> parser_accepts names k (data_of lines rt) = true ->
     e = KeyError_str "AcId").
Proof.
  intros Hj. rewrite extract_gather. destruct (Z.ltb_spec k 1).
  - eexists. split; [reflexivity|lia].
  - destruct (gather_no_acid names S k (data_of lines rt) Hj) as (e & He & Hk).
    rewrite He. cbn. eauto.
Qed.
End OneRecordType.

End ExtractFacts.

Module RowFacts.
Import Pd CsvFacts ChunkFacts NormFacts ExtractFacts.

Lemma Forall2_map_right {A B C} (R : A -> C -> Prop) (f : B -> C) (l : list A)
    (l' : list B) :
  Forall2 R l (map f l') -> Forall2 (fun x y => R x (f y)) l l'.
Proof.
  revert l. induction l' as [|y l' IH]; intros l H; inversion H; subst;
    constructor; auto.
Qed.

Lemma Forall2_compose {A B C} (R : A -> B -> Prop) (Q : A -> C -> Prop)
    (l : list A) (l1 : list B) (l2 : list C) :
  Forall2 R l l1 -> Forall2 Q l l2 ->
  Forall2 (fun y z => exists x, R x y /\ Q x z) l1 l2.
Proof.
  intros H. revert l2. induction H; intros l2 H2; inversion H2; subst;
    constructor; eauto.
Qed.

Lemma to_datetime_cell_missing (c c' : cell) :
  to_datetime_cell c = Ok c' -> missing c' = missing c.
Proof.
  destruct c as [|d|t|d|]; cbn.
  - now intros [= <-].
  - destruct (in_bounds d); [now intros [= <-]|discriminate].
  - destruct (parse_number t) as [d|]; [|discriminate].
    destruct (in_bounds d); [now intros [= <-]|discriminate].
  - now intros [= <-].
  - now intros [= <-].
Qed.

Lemma times100_missing (c : cell) : missing (times100 c) = missing c.
Proof. now destruct c. Qed.

(** What [norm_row] leaves in each place. *)
Lemma norm_row_spec (ot oa : option nat) (row row' : list cell) :
  norm_row ot oa row = Ok row' ->
  length row' = length row /\
  forall j c, nth_error row j = Some c ->
    exists c1, (if at_index ot j then to_datetime_cell c = Ok c1 else c1 = c) /\
               nth_error row' j = Some (if at_index oa j then times100 c1 else c1).
Proof.
  unfold norm_row. intros H.
  assert (Hstep : forall r1, (forall j c, nth_error row j = Some c ->
              exists c1, (if at_index ot j then to_datetime_cell c = Ok c1 else c1 = c) /\
                         nth_error r1 j = Some c1) ->
            length r1 = length row ->
            Ok (match oa with Some j => update_nth j times100 r1 | None => r1 end) = Ok row' ->
            length row' = length row /\
            forall j c, nth_error row j = Some c ->
              exists c1, (if at_index ot j then to_datetime_cell c = Ok c1 else c1 = c) /\
                nth_error row' j = Some (if at_index oa j then times100 c1 else c1)).
  { intros r1 Hr1 Hlen [= <-]. split.
    - destruct oa; [rewrite length_update_nth|]; assumption.
    - intros j c Hc. destruct (Hr1 j c Hc) as (c1 & H1 & H2). exists c1.
      split; [assumption|]. destruct oa as [ja|]; cbn; [|assumption].
      rewrite nth_error_update_nth, (Nat.eqb_sym j ja), H2.
      now destruct (ja =? j)%nat. }
  destruct ot as [jt|]; cbn [at_index] in *.
  - destruct (nth_error row jt) as [ct|] eqn:Et.
    + destruct (to_datetime_cell ct) as [ct'|] eqn:Ect; cbn [rbind] in H; [|discriminate].
      apply Hstep in H; [assumption| |apply length_update_nth].
      intros j c Hc. rewrite nth_error_update_nth, (Nat.eqb_sym j jt).
      destruct (Nat.eqb_spec jt j) as [->|].
      * rewrite Hc in *. injection Et as ->. exists ct'. auto.
      * exists c. auto.
    + cbn [rbind] in H. apply Hstep in H; [assumption| |reflexivity].
      intros j c Hc. destruct (Nat.eqb_spec jt j) as [->|]; [congruence|eauto].
  - cbn [rbind] in H. apply Hstep in H; [assumption| |reflexivity]. eauto.
Qed.

(** [norm_row] succeeds when the time of the row converts. *)
Lemma norm_row_ok (ot oa : option nat) (row : list cell) :
  (forall jt c, ot = Some jt -> nth_error row jt = Some c ->
                exists c', to_datetime_cell c = Ok c') ->
  exists row', norm_row ot oa row = Ok row'.
Proof.
  intros H. unfold norm_row. destruct ot as [jt|]; [|cbn; eauto].
  destruct (nth_error row jt) as [c|] eqn:E; [|cbn; eauto].
  destruct (H jt c eq_refl E) as [c' ->]. cbn. eauto.
Qed.

Lemma rmap_ok {A B} (f : A -> result B) (l : list A) :
  Forall (fun x => exists y, f x = Ok y) l -> exists ys, rmap f l = Ok ys.
Proof.
  induction 1 as [|x l [y Hy] _ [ys IH]]; cbn; [eauto|].
  rewrite Hy, IH. cbn. eauto.
Qed.

Lemma cell_of_missing (chunk : list (list string)) (row : list string) (j : nat) :
  missing (cell_of chunk row j) = true <-> token row j = None.
Proof.
  unfold cell_of. destruct (token row j) as [t|]; [|cbn; tauto].
  destruct (column_numeric chunk j); [destruct (parse_number t)|]; cbn;
    split; discriminate.
Qed.

Lemma nth_error_map_seq {A} (f : nat -> A) (n j : nat) :
  (j < n)%nat -> nth_error (map f (seq 0 n)) j = Some (f j).
Proof.
  intros H. rewrite nth_error_map, nth_error_seq.
  destruct (Nat.ltb_spec j n); [reflexivity|lia].
Qed.

End RowFacts.

(** ** Extraction of the lines of a record type *)

Import Pd CsvFacts ChunkFacts NormFacts ExtractFacts RowFacts.

(** A call that succeeds for one record type went through every stage. *)
Lemma decode_scalar_stages (lines : list string) (rt : Z) (cs : callsigns_arg) (k : Z)
    (df : frame) :
  decode lines (Scalar rt) cs k = Ok (Single df) ->
  exists v lrt names,
    detect_version lines = Ok v /\ rmap line_record_type lines = Ok lrt /\
    dict_get (cols v) rt = Some names /\
    extract (cols v) lines lrt (callsign_list cs) k rt = Ok df /\
    (k <? 1) = false.
Proof.
  intros (v & lrt & df' & Hv & Hl & E & [= <-])%decode_scalar.
  destruct (dict_get (cols v) rt) as [names|] eqn:Hn.
  - exists v, lrt, names. repeat split; try assumption.
    rewrite (extract_gather _ _ _ _ _ _ Hl Hn) in E.
    destruct (k <? 1); [discriminate|reflexivity].
  - unfold extract in E. rewrite Hn in E. discriminate.
Qed.




(** ** Filtering by callsign *)

Module FilterFacts.

Lemma keep_norm (ot oa : option nat) (j : nat) (S : list string) (x y : list cell) :
  at_index ot j = false -> at_index oa j = false ->
  norm_row ot oa x = Ok y -> keep j S y = keep j S x.
Proof.
  intros Ht Ha [Hlen Hcells]%norm_row_spec. unfold keep.
  destruct (nth_error x j) as [c|] eqn:E.
  - destruct (Hcells j c E) as (c1 & H1 & H2).
    rewrite Ht in H1. rewrite Ha in H2. subst. now rewrite H2.
  - apply nth_error_None in E.
    destruct (nth_error y j) eqn:E'; [|reflexivity].
    assert (nth_error y j <> None) as H%nth_error_Some by congruence. lia.
Qed.

Lemma at_index_distinct (names : list string) (a b : string) (j : nat) :
  a <> b -> index_of b names = Some j -> at_index (index_of a names) j = false.
Proof.
  intros Hab Hb. destruct (index_of a names) as [i|] eqn:Ha; [|reflexivity].
  cbn. destruct (Nat.eqb_spec i j) as [->|]; [|reflexivity].
  apply index_of_nth in Ha, Hb. congruence.
Qed.

Lemma keep_two (j : nat) (a b : string) (row : list cell) :
  keep j [a; b] row = keep j [a] row || keep j [b] row.
Proof.
  unfold keep. destruct (nth_error row j) as [[]|]; cbn; try reflexivity.
  now rewrite !orb_false_r.
Qed.

Lemma keep_disjoint (j : nat) (a b : string) (row : list cell) :
  a <> b -> keep j [a] row && keep j [b] row = false.
Proof.
  intros Hab. unfold keep. destruct (nth_error row j) as [[| |s| |]|]; cbn; try reflexivity.
  rewrite !orb_false_r.
  destruct (String.eqb_spec s a), (String.eqb_spec s b); try reflexivity. congruence.
Qed.

Lemma filter_or_length {A} (p q : A -> bool) (l : list A) :
  (forall x, p x && q x = false) ->
  length (filter (fun x => p x || q x) l) = (length (filter p l) + length (filter q l))%nat.
Proof.
  intros Hd. induction l as [|x l IH]; [reflexivity|]. cbn.
  specialize (Hd x). destruct (p x), (q x); cbn in *; try discriminate; lia.
Qed.

Lemma column_In (name : string) (df : frame) (j : nat) (c : cell) :
  index_of name (columns df) = Some j ->
  In c (column name df) <-> exists row, In row (rows df) /\ nth_error row j = Some c.
Proof.
  intros Hj. unfold column. rewrite Hj, in_flat_map. split.
  - intros (row & Hrow & Hc). exists row. split; [assumption|].
    destruct (nth_error row j); [destruct Hc as [->|[]]; reflexivity|destruct Hc].
  - intros (row & Hrow & Hc). exists row. split; [assumption|].
    rewrite Hc. now left.
Qed.

Lemma keep_true (j : nat) (S : list string) (row : list cell) :
  keep j S row = true <-> exists s, nth_error row j = Some (Text s) /\ In s S.
Proof.
  unfold keep. destruct (nth_error row j) as [[| |s| |]|]; cbn;
    try (split; [discriminate|intros (s0 & [=] & _)]).
  rewrite existsb_exists. split.
  - intros (s' & Hs' & ->%String.eqb_eq). eauto.
  - intros (s' & [= <-] & Hs'). exists s. split; [assumption|apply String.eqb_refl].
Qed.

(** In a table filtered by callsign, the distinct callsigns are those of
    the set that occur in the unfiltered table. *)
Lemma distinct_present (S : list string) (df0 df : frame) (j : nat) :
  columns df = columns df0 ->
  index_of "callsign" (columns df0) = Some j ->
  rows df = filter (keep j S) (rows df0) ->
  distinct_count "callsign" df = length (present S df0).
Proof.
  intros Hcols Hj Hrows. unfold distinct_count, present.
  rewrite <- (length_map Text).
  apply Permutation_length, NoDup_Permutation.
  - apply NoDup_nodup.
  - apply Injective_map_NoDup; [intros x y [= ->]; reflexivity|apply NoDup_nodup].
  - intros c. rewrite nodup_In, in_map_iff.
    rewrite (column_In "callsign" df j c) by now rewrite Hcols.
    rewrite Hrows. split.
    + intros (row & [Hrow Hk]%filter_In & Hc).
      apply keep_true in Hk as (s & Hs & HS). exists s.
      split; [congruence|]. apply nodup_In, filter_In. split; [assumption|].
      destruct (in_dec _ _ _) as [|Hn]; [reflexivity|]. exfalso. apply Hn.
      apply (column_In "callsign" df0 j); eauto.
    + intros (s & <- & [HS Hp]%nodup_In%filter_In).
      destruct (in_dec _ _ _) as [Hin|]; [|discriminate].
      apply (column_In "callsign" df0 j) in Hin as (row & Hrow & Hc); [|assumption].
      exists row. split; [|assumption]. apply filter_In. split; [assumption|].
      apply keep_true. eauto.
Qed.

End FilterFacts.

Import FilterFacts.



(** ** Rows and the lines they come from *)

Module SourceFacts.

Lemma Forall2_In_r {A B} (R : A -> B -> Prop) (l1 : list A) (l2 : list B) (y : B) :
  Forall2 R l1 l2 -> In y l2 -> exists x, In x l1 /\ R x y.
Proof.
  induction 1 as [|a b l1 l2 Hab _ IH]; intros Hin; [destruct Hin|].
  destruct Hin as [<-|Hin]; [exists a; cbn; auto|].
  destruct (IH Hin) as (x & Hx & HR). exists x. cbn. auto.
Qed.

(** The rows of a successful pass are the normalised rows of a selection
    of the rows read, all of them when no callsign is given. *)
Lemma extract_rows (cols : dict (list string)) (lines : list string) (lrt : list Z)
    (rt : Z) (names : list string) (k : Z) (cs : option (list string)) (df : frame) :
  rmap line_record_type lines = Ok lrt ->
  dict_get cols rt = Some names ->
  extract cols lines lrt cs k rt = Ok df ->
  1 <= k /\ parser_accepts names k (data_of lines rt) = true /\
  columns df = map renamed names /\
  exists sel,
    rmap (nrow names) sel = Ok (rows df) /\
    incl sel (raw_rows names k (data_of lines rt)) /\
    (cs = None -> sel = raw_rows names k (data_of lines rt)).
Proof.
  intros Hl Hn E. destruct cs as [S|].
  - destruct (index_of "AcId" names) as [j|] eqn:Hj.
    + rewrite (extract_some _ _ _ _ _ _ Hl Hn S j Hj) in E.
      destruct (Z.ltb_spec k 1); [discriminate|].
      destruct (parser_accepts _ _ _); [|discriminate].
      destruct (rmap (nrow names) _) as [rs|] eqn:Ers; [|discriminate].
      cbn in E. injection E as <-. repeat split; try assumption.
      eexists. split; [exact Ers|]. split; [|discriminate].
      intros x [Hx _]%filter_In. exact Hx.
    + destruct (extract_some_no_acid _ _ _ _ _ k Hl Hn S Hj) as (e & He & _).
      congruence.
  - rewrite (extract_none _ _ _ _ _ _ Hl Hn) in E.
    destruct (Z.ltb_spec k 1); [discriminate|].
    destruct (parser_accepts _ _ _); [|discriminate].
    destruct (rmap (nrow names) _) as [rs|] eqn:Ers; [|discriminate].
    cbn in E. injection E as <-. repeat split; try assumption.
    eexists. split; [exact Ers|]. split; [apply incl_refl|reflexivity].
Qed.

Lemma row_of_line (names : list string) (lines : list string) (rt : Z)
    (raw : list cell) (fields : list string) :
  row_of names (data_of lines rt) raw fields ->
  In fields (data_of lines rt) ->
  exists line, In line (target_lines lines rt) /\ fields = Py.split_comma line.
Proof.
  intros _ (line & <- & Hin)%in_map_iff. eauto.
Qed.

Lemma column_numeric_incl (chunk data : list (list string)) (j : nat) :
  incl chunk data ->
  Forall (fun row => match token row j with
                     | Some t => is_number t = true
                     | None => True
                     end) data ->
  column_numeric chunk j = true.
Proof.
  intros Hincl Hall. unfold column_numeric. apply forallb_forall.
  intros row Hrow. rewrite Forall_forall in Hall.
  specialize (Hall row (Hincl _ Hrow)). now destruct (token row j).
Qed.

(** The test on the values of a column, as a computation. *)
Lemma numeric_check (j : nat) (l : list string) :
  forallb (fun line => match token (Py.split_comma line) j with
                       | Some t => is_number t
                       | None => true
                       end) l = true ->
  Forall (fun line => match token (Py.split_comma line) j with
                      | Some t => is_number t = true
                      | None => True
                      end) l.
Proof.
  rewrite forallb_forall, Forall_forall. intros H line Hin.
  specialize (H line Hin). now destruct (token (Py.split_comma line) j).
Qed.

End SourceFacts.

Import SourceFacts.



(** ** Missing values and times *)

Module TimeFacts.

Lemma question_mark_missing (chunk : list (list string)) (row : list string) (j : nat) :
  nth_error row j = Some "?" -> cell_of chunk row j = NA.
Proof.
  intros H. unfold cell_of, token. now rewrite H.
Qed.

Lemma cell_converts (chunk : list (list string)) (fields : list string) (jt : nat) :
  match token fields jt with
  | Some t => is_epoch t = true
  | None => True
  end ->
  exists c', to_datetime_cell (cell_of chunk fields jt) = Ok c'.
Proof.
  unfold cell_of, is_epoch. destruct (token fields jt) as [t|]; [|cbn; eauto].
  destruct (parse_number t) as [d|] eqn:Ed; [|discriminate]. intros Hb.
  destruct (column_numeric chunk jt); cbn; rewrite ?Ed, Hb; eauto.
Qed.

(** Every row read normalises when the times convert. *)
Lemma rows_normalise (names : list string) (lines : list string) (rt k : Z) (jt : nat) :
  1 <= k ->
  index_of "time" (map renamed names) = Some jt ->
  times_convert jt lines rt ->
  exists rs, rmap (nrow names) (raw_rows names k (data_of lines rt)) = Ok rs.
Proof.
  intros Hk Hjt Htimes. apply rmap_ok, Forall_forall. intros raw Hraw.
  destruct (Forall2_In_r _ _ _ _ (Forall2_flip (raw_rows_of names k _ Hk)) Hraw)
    as (fields & Hf & chunk & Hin & Hch & ->).
  apply in_map_iff in Hf as (line & <- & Hline).
  unfold times_convert in Htimes. rewrite Forall_forall in Htimes.
  apply norm_row_ok. unfold nrow. intros j c Hj Hc.
  rewrite Hjt in Hj. injection Hj as <-.
  assert (Hlt : (jt < length names)%nat).
  { apply index_of_lt in Hjt. now rewrite length_map in Hjt. }
  rewrite (nth_error_map_seq _ _ _ Hlt) in Hc. injection Hc as <-.
  apply cell_converts, Htimes, Hline.
Qed.

(** The test on the times, as a computation. *)
Lemma times_check (jt : nat) (lines : list string) (rt : Z) :
  forallb (fun line => match token (Py.split_comma line) jt with
                       | Some t => is_epoch t
                       | None => true
                       end) (target_lines lines rt) = true ->
  times_convert jt lines rt.
Proof.
  unfold times_convert. rewrite forallb_forall, Forall_forall. intros H line Hin.
  specialize (H line Hin). now destruct (token (Py.split_comma line) jt).
Qed.

End TimeFacts.

Import TimeFacts.

(** The pass for callsigns [S] keeps the rows of the unfiltered pass whose
    callsign is in [S]. *)
Lemma extract_some_filter (v : version) (lines : list string) (lrt : list Z)
    (rt : Z) (names : list string) (k : Z) (j : nat) (S : list string)
    (rs0 : list (list cell)) :
  rmap line_record_type lines = Ok lrt ->
  dict_get (cols v) rt = Some names ->
  index_of "AcId" names = Some j ->
  (k <? 1) = false ->
  parser_accepts names k (data_of lines rt) = true ->
  rmap (nrow names) (raw_rows names k (data_of lines rt)) = Ok rs0 ->
  extract (cols v) lines lrt (Some S) k rt =
  Ok (mkFrame (map renamed names) (filter (keep j S) rs0)).
Proof.
  intros Hl Hn Hj Hk Hacc Ers0.
  destruct (schema_indices _ _ _ Hn) as (_ & _ & Hcs). rewrite Hj in Hcs.
  rewrite (extract_some _ _ _ _ _ _ Hl Hn S j Hj), Hk, Hacc.
  erewrite rmap_filter; [reflexivity| |exact Ers0].
  intros x y. apply keep_norm.
  - apply (at_index_distinct _ "time" "callsign"); [discriminate|assumption].
  - apply (at_index_distinct _ "altitude" "callsign"); [discriminate|assumption].
Qed.



(** ** Callsigns and record types without aircraft identifier *)

Lemma asks_for_requested (record_types : record_types_arg) (lines : list string)
    (lrt : list Z) (rt : Z) :
  rmap line_record_type lines = Ok lrt ->
  asks_for record_types lines rt ->
  In rt (requested record_types lrt).
Proof.
  intros Hl H. destruct record_types as [|l|c]; cbn in *.
  - apply DictFacts.unique_In. destruct H as (line & Hin & Hrt).
    apply rmap_Forall2 in Hl. clear -Hl Hin Hrt.
    induction Hl as [|x y l l' Hxy _ IH]; [destruct Hin|].
    destruct Hin as [->|Hin]; [left; congruence|right; auto].
  - assumption.
  - now left.
Qed.

(** C10. With callsigns, a request that covers one of the record types 0,
    1, 5 and 6, whose columns have no [AcId], ends with an exception; for
    one such record type, on lines the parser accepts, the exception is the
    [KeyError] of [chunk['AcId']]. Without callsigns the same record type
    is decoded (for record type 6, provided its times convert). *)
Theorem C10_callsigns_need_acid (lines : list string) (rt : Z) (cs : callsigns_arg)
    (k : Z) (S : list string) :
  In rt [0; 1; 5; 6] ->
  callsign_list cs = Some S ->
  (forall record_types, asks_for record_types lines rt ->
     exists e, decode lines record_types cs k = Raise e) /\
  (forall v lrt names,
     detect_version lines = Ok v ->
     rmap line_record_type lines = Ok lrt ->
     dict_get (cols v) rt = Some names ->
     1 <= k ->
     parser_accepts names k (data_of lines rt) = true ->
     decode lines (Scalar rt) cs k = Raise (KeyError_str "AcId") /\
     ((rt = 6 -> times_convert 1 lines rt) ->
      exists df, decode lines (Scalar rt) NoCallsigns k = Ok (Single df))).
Proof.
  intros Hrt Hcs. split.
  - intros record_types Hask. unfold decode.
    destruct (detect_version lines) as [v|e]; cbn [rbind]; [|eauto].
    destruct (rmap line_record_type lines) as [lrt|e] eqn:Hl; cbn [rbind]; [|eauto].
    destruct (cols_without_acid v rt Hrt) as (names & Hn & Hj & _).
    destruct (DictFacts.collect_raise
                (extract (cols v) lines lrt (callsign_list cs) k)
                (requested record_types lrt) rt
                (asks_for_requested _ _ _ _ Hl Hask)) with (acc := @nil (Z * frame))
      as [e He].
    + rewrite Hcs.
      destruct (extract_some_no_acid _ _ _ _ _ k Hl Hn S Hj) as (e & He & _). eauto.
    + rewrite He. cbn. eauto.
  - intros v lrt names Hv Hl Hn Hk Hacc.
    destruct (cols_without_acid v rt Hrt) as (names' & Hn' & Hj & _ & Htime).
    rewrite Hn in Hn'. injection Hn' as <-. split.
    + unfold decode. rewrite Hv, Hl. cbn. rewrite Hcs.
      destruct (extract_some_no_acid _ _ _ _ _ k Hl Hn S Hj) as (e & He & Hke).
      rewrite He. cbn. now rewrite (Hke Hk Hacc).
    + intros Hconv.
      assert (Hrs : exists rs, rmap (nrow names) (raw_rows names k (data_of lines rt)) = Ok rs).
      { destruct (schema_indices _ _ _ Hn) as (Ht & _ & _).
        destruct Htime as [Hnone|[-> Hsome]].
        - apply rmap_ok, Forall_forall. intros raw _. apply norm_row_ok.
          unfold nrow. rewrite Ht, Hnone. discriminate.
        - apply (rows_normalise names lines 6 k 1); [assumption|congruence|auto]. }
      destruct Hrs as [rs Hrs]. exists (mkFrame (map renamed names) rs).
      apply decode_scalar. exists v, lrt. eexists. repeat split; try eassumption.
      cbn [callsign_list]. rewrite (extract_none _ _ _ _ _ _ Hl Hn), Hacc, Hrs.
      destruct (Z.ltb_spec k 1); [lia|reflexivity].
Qed.

Lemma C10_witness :
  decode sample_lines (Scalar 0) (OneCallsign "ABC123") 50000 = Raise (KeyError_str "AcId") /\
  exists df, decode sample_lines (Scalar 0) NoCallsigns 50000 = Ok (Single df).
Proof.
  destruct (C10_callsigns_need_acid sample_lines 0 (OneCallsign "ABC123") 50000
              ["ABC123"]) as [_ H].
  - cbn. auto.
  - reflexivity.
  - destruct (H (of_release [2; 6]%N) [1; 0; 3; 3; 3; 3] ["recType"; "comment"])
      as [H1 H2]; try (vm_compute; reflexivity).
    + lia.
    + split; [exact H1|]. apply H2. discriminate.
Defined.

(** ** Version detection *)

(** C8, as the code has it. The version is read from the first line alone:
    it is what [parse_version] makes of the third comma-separated field of
    that line. When the first line has fewer than three fields the call
    ends with [IndexError], whatever the request. *)
Theorem C8_version_detection (lines : list string) (record_types : record_types_arg)
    (cs : callsigns_arg) (k : Z) :
  detect_version lines = detect_version [hd EmptyString lines] /\
  (forall field v,
     nth_error (Py.split_comma (hd EmptyString lines)) 2 = Some field ->
     parse_version field = Some v ->
     detect_version lines = Ok v) /\
  ((length (Py.split_comma (hd EmptyString lines)) < 3)%nat ->
   detect_version lines = Raise IndexError /\
   decode lines record_types cs k = Raise IndexError).
Proof.
  split; [reflexivity|]. split.
  - intros field v Hf Hp. unfold detect_version. rewrite Hf. cbn. now rewrite Hp.
  - intros Hlen.
    assert (H : detect_version lines = Raise IndexError).
    { unfold detect_version.
      destruct (nth_error (Py.split_comma (hd EmptyString lines)) 2) eqn:E;
        [|reflexivity].
      assert (nth_error (Py.split_comma (hd EmptyString lines)) 2 <> None)
        as Hs%nth_error_Some by congruence. lia. }
    split; [exact H|]. unfold decode. now rewrite H.
Qed.

Lemma C8_witness :
  decode ["1,IFF"; "3,0"] (Scalar 3) NoCallsigns 50000 = Raise IndexError.
Proof.
  apply (C8_version_detection ["1,IFF"; "3,0"] (Scalar 3) NoCallsigns 50000).
  vm_compute. lia.
Defined.

(** C8 as worded fails: a third field that is not a dotted numeric string
    does not make the call fail when it is a version of another form. Here
    the field is the release candidate [2.13rc1], and the call returns the
    header line. *)
Lemma C8_counterexample :
  ~ (forall lines record_types cs k,
        ((length (Py.split_comma (hd EmptyString lines)) < 3)%nat \/
         exists field,
           nth_error (Py.split_comma (hd EmptyString lines)) 2 = Some field /\
           dotted_numeric field = None) ->
        exists e, decode lines record_types cs k = Raise e).
Proof.
  intros H.
  destruct (H ["1,IFF,2.13rc1"] (Scalar 1) NoCallsigns 50000) as [e He].
  - right. exists "2.13rc1". split; reflexivity.
  - vm_compute in He. discriminate.
Qed.

Lemma C1_witness :
  exists d,
    decode sample_lines All NoCallsigns 50000 = Ok (Mapping d) /\
    map fst d = [0; 1; 3] /\ StronglySorted Z.lt (map fst d).
Proof.
  destruct (decode sample_lines All NoCallsigns 50000) as [out|] eqn:E;
    [|vm_compute in E; discriminate].
  destruct (C1_result_shape sample_lines All NoCallsigns 50000 out E)
    as (v & lrt & _ & Hl & d & -> & Hkeys & Hsorted & _).
  exists d. split; [reflexivity|]. split; [|exact Hsorted].
  rewrite Hkeys. vm_compute in Hl. injection Hl as <-. reflexivity.
Defined.

(* ===================================================================== *)
(** * Further properties *)
(* ===================================================================== *)

(** ** The version order *)

Module OrderFacts.

Lemma lex_Eq (a b : comparison) : lex a b = Eq <-> a = Eq /\ b = Eq.
Proof. destruct a, b; cbn; intuition discriminate. Qed.

Lemma lex_Lt (a b : comparison) : lex a b = Lt <-> a = Lt \/ (a = Eq /\ b = Lt).
Proof. destruct a, b; cbn; intuition discriminate. Qed.

(** Equal elements also compare alike on the right. *)
Lemma o_eq_r {A} (cmp : A -> A -> comparison) (O : ordering cmp) (x y z : A) :
  cmp y z = Eq -> cmp x y = cmp x z.
Proof.
  intros H. rewrite (o_sym cmp O y x), (o_sym cmp O z x). f_equal.
  apply (o_eq cmp O). exact H.
Qed.

Lemma ordering_N : ordering N.compare.
Proof.
  constructor.
  - intros x y. apply N.compare_antisym.
  - intros x y z H. apply N.compare_eq in H. now subst.
  - intros x y z. rewrite !N.compare_lt_iff. lia.
Qed.

Lemma ordering_nat : ordering Nat.compare.
Proof.
  constructor.
  - intros x y. apply Nat.compare_antisym.
  - intros x y z H. apply Nat.compare_eq in H. now subst.
  - intros x y z. rewrite !Nat.compare_lt_iff. lia.
Qed.

Lemma ordering_map {A B} (f : A -> B) (cmp : B -> B -> comparison) :
  ordering cmp -> ordering (fun x y => cmp (f x) (f y)).
Proof.
  intros O. constructor.
  - intros x y. apply (o_sym cmp O).
  - intros x y z. apply (o_eq cmp O).
  - intros x y z. apply (o_lt cmp O).
Qed.

Lemma ordering_lex {A} (c1 c2 : A -> A -> comparison) :
  ordering c1 -> ordering c2 -> ordering (fun x y => lex (c1 x y) (c2 x y)).
Proof.
  intros O1 O2. constructor.
  - intros x y. rewrite (o_sym c1 O1 x y), (o_sym c2 O2 x y).
    now destruct (c1 x y), (c2 x y).
  - intros x y z [H1 H2]%lex_Eq.
    now rewrite (o_eq c1 O1 x y z H1), (o_eq c2 O2 x y z H2).
  - intros x y z [H1|[H1 H2]]%lex_Lt [H3|[H3 H4]]%lex_Lt; apply lex_Lt.
    + left. eapply (o_lt c1 O1); eassumption.
    + left. now rewrite <- (o_eq_r c1 O1 x y z H3).
    + left. now rewrite (o_eq c1 O1 x y z H1).
    + right. rewrite (o_eq c1 O1 x y z H1). split; [assumption|].
      eapply (o_lt c2 O2); eassumption.
Qed.

Lemma ordering_tuple {A} (cmp : A -> A -> comparison) :
  ordering cmp -> ordering (tuple_compare cmp).
Proof.
  intros O. constructor.
  - induction x as [|a x IH]; destruct y as [|b y]; cbn; try reflexivity.
    rewrite (o_sym cmp O a b), IH. now destruct (cmp a b).
  - induction x as [|a x IH]; destruct y as [|b y]; cbn; try discriminate;
      intros z H; [reflexivity|].
    destruct (cmp a b) eqn:E; try discriminate.
    destruct z as [|c z]; cbn; [reflexivity|].
    rewrite (o_eq cmp O a b c E). destruct (cmp b c); auto.
  - induction x as [|a x IH]; destruct y as [|b y]; destruct z as [|c z]; cbn;
      try discriminate; try reflexivity.
    destruct (cmp a b) eqn:E1; destruct (cmp b c) eqn:E2; try discriminate; intros H1 H2.
    + rewrite (o_eq cmp O a b c E1), E2. eauto.
    + now rewrite (o_eq cmp O a b c E1), E2.
    + now rewrite <- (o_eq_r cmp O a b c E2), E1.
    + now rewrite (o_lt cmp O a b c E1 E2).
Qed.

Lemma ordering_ext {A} (cmp : A -> A -> comparison) :
  ordering cmp -> ordering (ext_compare cmp).
Proof.
  intros O. constructor.
  - intros [|a|] [|b|]; cbn; try reflexivity. apply (o_sym cmp O).
  - intros [|a|] [|b|] [|c|]; cbn; try discriminate; try reflexivity.
    apply (o_eq cmp O).
  - intros [|a|] [|b|] [|c|]; cbn; try discriminate; try reflexivity.
    apply (o_lt cmp O).
Qed.

Lemma ordering_str : ordering Py.str_compare.
Proof.
  constructor.
  - induction x as [|a x IH]; destruct y as [|b y]; cbn; try reflexivity.
    rewrite (Nat.compare_antisym (nat_of_ascii a) (nat_of_ascii b)), IH.
    now destruct (nat_of_ascii a ?= nat_of_ascii b)%nat.
  - induction x as [|a x IH]; destruct y as [|b y]; cbn; try discriminate;
      intros z H; [reflexivity|].
    destruct (nat_of_ascii a ?= nat_of_ascii b)%nat eqn:E; try discriminate.
    destruct z as [|c z]; cbn; [reflexivity|].
    apply Nat.compare_eq in E. rewrite E.
    destruct (nat_of_ascii b ?= nat_of_ascii c)%nat; auto.
  - induction x as [|a x IH]; destruct y as [|b y]; destruct z as [|c z]; cbn;
      try discriminate; try reflexivity.
    destruct (nat_of_ascii a ?= nat_of_ascii b)%nat eqn:E1;
      destruct (nat_of_ascii b ?= nat_of_ascii c)%nat eqn:E2;
      try discriminate; intros H1 H2.
    + apply Nat.compare_eq in E1. rewrite E1, E2. eauto.
    + apply Nat.compare_eq in E1. now rewrite E1, E2.
    + apply Nat.compare_eq in E2. now rewrite <- E2, E1.
    + now rewrite (o_lt _ ordering_nat _ _ _ E1 E2).
Qed.

Lemma ordering_pre : ordering pre_compare.
Proof.
  apply (ordering_lex (fun x y => N.compare (tag_rank (fst x)) (tag_rank (fst y)))
                      (fun x y => N.compare (snd x) (snd y)));
    apply ordering_map, ordering_N.
Qed.

Lemma ordering_local_part : ordering local_part_compare.
Proof.
  constructor.
  - intros [a|a] [b|b]; cbn; try reflexivity.
    + apply N.compare_antisym.
    + apply (o_sym _ ordering_str).
  - intros [a|a] [b|b] [c|c]; cbn; try discriminate; try reflexivity.
    + apply (o_eq _ ordering_N).
    + apply (o_eq _ ordering_str).
  - intros [a|a] [b|b] [c|c]; cbn; try discriminate; try reflexivity.
    + apply (o_lt _ ordering_N).
    + apply (o_lt _ ordering_str).
Qed.

(** The comparison of versions is an order. *)
Lemma ordering_version : ordering Pep440.compare.
Proof.
  unfold Pep440.compare.
  apply (ordering_lex (fun v w => N.compare (epoch v) (epoch w))).
  { apply (ordering_map epoch), ordering_N. }
  apply (ordering_lex
           (fun v w => tuple_compare N.compare (strip_zeros (release v))
                         (strip_zeros (release w)))).
  { apply (ordering_map (fun v => strip_zeros (release v))), ordering_tuple, ordering_N. }
  apply (ordering_lex (fun v w => ext_compare pre_compare (key_pre v) (key_pre w))).
  { apply (ordering_map key_pre), ordering_ext, ordering_pre. }
  apply (ordering_lex (fun v w => ext_compare N.compare (key_post v) (key_post w))).
  { apply (ordering_map key_post), ordering_ext, ordering_N. }
  apply (ordering_lex (fun v w => ext_compare N.compare (key_dev v) (key_dev w))).
  { apply (ordering_map key_dev), ordering_ext, ordering_N. }
  apply (ordering_map key_local), ordering_ext, ordering_tuple, ordering_local_part.
Qed.

Lemma ge_trans (u v w : version) :
  Pep440.ge w v = true -> Pep440.ge v u = true -> Pep440.ge w u = true.
Proof.
  unfold Pep440.ge. pose proof ordering_version as O.
  destruct (Pep440.compare w v) eqn:E1; try discriminate;
    destruct (Pep440.compare v u) eqn:E2; try discriminate; intros _ _.
  - now rewrite (o_eq _ O w v u E1), E2.
  - now rewrite (o_eq _ O w v u E1), E2.
  - now rewrite <- (o_eq_r _ O w v u E2), E1.
  - assert (H : Pep440.compare u w = Lt).
    { apply (o_lt _ O u v w).
      - rewrite (o_sym _ O v u), E2. reflexivity.
      - rewrite (o_sym _ O w v), E1. reflexivity. }
    rewrite (o_sym _ O u w), H. reflexivity.
Qed.

Lemma ge_total (v w : version) : Pep440.ge v w = true \/ Pep440.ge w v = true.
Proof.
  unfold Pep440.ge. rewrite (o_sym _ ordering_version v w).
  destruct (Pep440.compare v w); cbn; auto.
Qed.

End OrderFacts.

(** ** The schema across versions *)

Lemma ge_2_15_2_13 (v : version) :
  Pep440.ge v v2_15 = true -> Pep440.ge v v2_13 = true.
Proof.
  intros H. apply (OrderFacts.ge_trans v2_13 v2_15 v); [exact H|reflexivity].
Qed.

(** The table [cols] takes one of three values: the columns of 2.15 come
    only on top of those of 2.13, whatever the version string (release
    candidates, post-releases, epochs and local labels included). *)
Theorem schema_three_tables (v : version) :
  (Pep440.ge v v2_13 = false /\ cols v = base_cols) \/
  (Pep440.ge v v2_13 = true /\ Pep440.ge v v2_15 = false /\ cols v = cols_2_13) \/
  (Pep440.ge v v2_15 = true /\ cols v = dict_extend cols_2_13 3 fields_2_15).
Proof.
  rewrite SchemaFacts.cols_cases. pose proof (ge_2_15_2_13 v) as H.
  destruct (Pep440.ge v v2_13), (Pep440.ge v v2_15); auto.
  specialize (H eq_refl). discriminate.
Qed.

(** The schema only grows with the version: for a version [w] not below
    [v], the columns of every record type at [w] are those at [v], in the
    same order, followed by the columns added in between. *)
Theorem schema_grows_with_version (v w : version) (rt : Z) (names : list string) :
  Pep440.ge w v = true ->
  dict_get (cols v) rt = Some names ->
  exists extra, dict_get (cols w) rt = Some (names ++ extra)%list.
Proof.
  intros Hwv Hn.
  assert (Hall : Forall (fun '(rt, names) =>
                   exists extra, dict_get (cols w) rt = Some (names ++ extra)%list)
                   (cols v)).
  { pose proof (fun H => OrderFacts.ge_trans v2_13 v w Hwv H) as H13.
    pose proof (fun H => OrderFacts.ge_trans v2_15 v w Hwv H) as H15.
    destruct (schema_three_tables v) as [[Hv ->]|[(Hv & Hv' & ->)|[Hv ->]]];
      destruct (schema_three_tables w) as [[Hw ->]|[(Hw & Hw' & ->)|[Hw ->]]];
      try (rewrite H13 in Hw by assumption; discriminate);
      try (rewrite H15 in Hw' by assumption; discriminate);
      try (rewrite (ge_2_15_2_13 w (H15 Hv)) in Hw; discriminate).
    all: repeat apply Forall_cons; try apply Forall_nil.
    all: eexists; reflexivity. }
  rewrite Forall_forall in Hall.
  exact (Hall _ (DictFacts.dict_get_In _ _ _ Hn)).
Qed.

Lemma schema_grows_witness :
  exists extra,
    dict_get (cols v2_15) 3 =
    Some (["recType";"recTime";"fltKey";"bcnCode";"cid";"Source";"msgType";"AcId";
           "recTypeCat";"coord1";"coord2";"alt";"significance";"coord1Accur";
           "coord2Accur";"altAccur";"groundSpeed";"course";"rateOfClimb";
           "altQualifier";"altIndicator";"trackPtStatus";"leaderDir";"scratchPad";
           "msawInhibitInd";"assignedAltString";"controllingFac";"controllingSeg";
           "receivingFac";"receivingSec";"activeContr";"primaryContr";"kybrdSubset";
           "kybrdSymbol";"adsCode";"opsType";"airportCode"] ++ extra)%list.
Proof.
  apply (schema_grows_with_version (of_release [2; 6]%N) v2_15 3); reflexivity.
Defined.

(** ** Requests and their results *)

Module RequestFacts.

Lemma decode_mapping_stages (lines : list string) (record_types : record_types_arg)
    (cs : callsigns_arg) (k : Z) (d : dict frame) :
  decode lines record_types cs k = Ok (Mapping d) ->
  exists v lrt,
    detect_version lines = Ok v /\ rmap line_record_type lines = Ok lrt /\
    collect (extract (cols v) lines lrt (callsign_list cs) k)
      (requested record_types lrt) [] = Ok d.
Proof.
  unfold decode.
  destruct (detect_version lines) as [v|]; cbn; [|discriminate].
  destruct (rmap line_record_type lines) as [lrt|]; cbn; [|discriminate].
  destruct (collect _ _ _) as [d'|] eqn:E; cbn; [|discriminate].
  destruct record_types as [|l|c].
  - intros [= <-]. eauto.
  - intros [= <-]. eauto.
  - destruct (dict_get d' c); cbn; discriminate.
Qed.

(** The number of lines of a record type, counted on the classification. *)
Lemma target_lines_count (lines : list string) (lrt : list Z) (c : Z) :
  rmap line_record_type lines = Ok lrt ->
  length (target_lines lines c) = length (filter (fun x => x =? c) lrt).
Proof.
  revert lrt. induction lines as [|line lines IH]; intros lrt H.
  - cbn in H. injection H as <-. reflexivity.
  - apply CsvFacts.rmap_ok_cons in H as (y & ys & Hy & Hys & ->).
    specialize (IH ys Hys). unfold target_lines in *. cbn [filter]. rewrite Hy.
    destruct (y =? c); cbn [length]; now rewrite IH.
Qed.

Lemma indicator_sum (x : Z) (ks : list Z) :
  NoDup ks -> In x ks ->
  list_sum (map (fun c => if x =? c then 1%nat else 0%nat) ks) = 1%nat.
Proof.
  induction 1 as [|k ks Hk Hnd IH]; intros Hin; [destruct Hin|].
  cbn. destruct (Z.eqb_spec x k) as [->|Hne].
  - f_equal. clear -Hk. induction ks as [|c ks IH]; [reflexivity|].
    cbn. destruct (Z.eqb_spec k c) as [->|]; [exfalso; apply Hk; now left|].
    apply IH. intros H. apply Hk. now right.
  - destruct Hin as [->|Hin]; [contradiction|]. now apply IH.
Qed.

Lemma list_sum_add {A} (f g : A -> nat) (l : list A) :
  list_sum (map (fun x => (f x + g x)%nat) l) =
  (list_sum (map f l) + list_sum (map g l))%nat.
Proof.
  unfold list_sum. induction l as [|x l IH]; [reflexivity|]. cbn. rewrite IH. lia.
Qed.

(** Counting the elements of [l] code by code, over codes without
    repetition that cover [l], counts [l]. *)
Lemma count_by_code (ks l : list Z) :
  NoDup ks -> incl l ks ->
  list_sum (map (fun c => length (filter (fun x => x =? c) l)) ks) = length l.
Proof.
  intros Hnd. induction l as [|x l IH]; intros Hincl.
  - clear. induction ks as [|c ks IH]; [reflexivity|exact IH].
  - rewrite (map_ext _ (fun c => ((if (x =? c)%Z then 1 else 0)
                                  + length (filter (fun y => (y =? c)%Z) l))%nat)).
    + rewrite list_sum_add, indicator_sum, IH; try assumption.
      * reflexivity.
      * intros y Hy. apply Hincl. now right.
      * apply Hincl. now left.
    + intros c. cbn. now destruct (x =? c).
Qed.

(** Without callsigns a pass returns one row per line of the record
    type. *)
Lemma extract_all_rows (v : version) (lines : list string) (lrt : list Z) (k rt : Z)
    (df : frame) :
  rmap line_record_type lines = Ok lrt ->
  extract (cols v) lines lrt None k rt = Ok df ->
  length (rows df) = length (target_lines lines rt).
Proof.
  intros Hl E.
  destruct (dict_get (cols v) rt) as [names|] eqn:Hn;
    [|unfold extract in E; rewrite Hn in E; discriminate].
  destruct (extract_rows _ _ _ _ _ _ _ _ Hl Hn E) as (Hk & _ & _ & sel & Hsel & _ & Hall).
  rewrite (Hall eq_refl) in Hsel. apply rmap_length in Hsel. rewrite Hsel.
  pose proof (raw_rows_of names k (data_of lines rt) Hk) as H.
  apply Forall2_length in H. rewrite H. apply length_map.
Qed.

Lemma total_rows_sum (d : dict frame) (cnt : Z -> nat) :
  (forall c df, In (c, df) d -> length (rows df) = cnt c) ->
  total_rows d = list_sum (map cnt (map fst d)).
Proof.
  induction d as [|[c df] d IH]; intros H; [reflexivity|].
  cbn. rewrite (H c df) by now left. f_equal. apply IH.
  intros c' df' Hin. apply H. now right.
Qed.

(** The keys of the dictionary the loop fills. *)
Lemma collect_keys (f : Z -> result frame) (l : list Z) :
  forall acc d, collect f l acc = Ok d ->
    map fst d = (map fst acc ++ new_keys (map fst acc) l)%list.
Proof.
  induction l as [|rt l IH]; intros acc d H; cbn in H.
  - injection H as <-. cbn. now rewrite app_nil_r.
  - destruct (f rt) as [df|]; cbn in H; [|discriminate].
    rewrite (IH _ _ H). cbn [new_keys].
    destruct (existsb (Z.eqb rt) (map fst acc)) eqn:E.
    + rewrite DictFacts.dict_set_in; [reflexivity|].
      apply existsb_exists in E as (x & Hx & ->%Z.eqb_eq). exact Hx.
    + rewrite DictFacts.dict_set_notin.
      * now rewrite <- app_assoc.
      * intros Hin. apply not_true_iff_false in E. apply E, existsb_exists.
        exists rt. split; [assumption|apply Z.eqb_refl].
Qed.

(** Once a code is in the dictionary, the loop leaves it a frame of that
    code. *)
Lemma collect_untouched (f : Z -> result frame) (c : Z) (l : list Z) :
  forall acc d, ~ In c l -> collect f l acc = Ok d -> dict_get d c = dict_get acc c.
Proof.
  induction l as [|x l IH]; intros acc d Hn H; cbn in H.
  - now injection H as <-.
  - destruct (f x) as [dx|]; cbn in H; [|discriminate].
    rewrite (IH _ _ (fun F => Hn (or_intror F)) H).
    assert (Hx : x <> c) by (intros ->; apply Hn; now left).
    clear -Hx. induction acc as [|[k' v'] acc IHa]; cbn.
    + destruct (Z.eqb_spec x c); [contradiction|reflexivity].
    + destruct (Z.eqb_spec k' x) as [->|]; cbn.
      * destruct (Z.eqb_spec x c); [contradiction|reflexivity].
      * destruct (k' =? c); [reflexivity|exact IHa].
Qed.

Lemma collect_get (f : Z -> result frame) (l : list Z) :
  forall acc d c, collect f l acc = Ok d -> In c l ->
    exists df, dict_get d c = Some df /\ f c = Ok df.
Proof.
  induction l as [|rt l IH]; intros acc d c H Hin; [destruct Hin|].
  cbn in H. destruct (f rt) as [df'|] eqn:Ef; cbn in H; [|discriminate].
  destruct (in_dec Z.eq_dec c l) as [Hl|Hl]; [now apply (IH _ _ _ H)|].
  destruct Hin as [->|Hin]; [|contradiction].
  exists df'. split; [|assumption].
  rewrite (collect_untouched f c l _ d Hl H). apply DictFacts.dict_get_set_eq.
Qed.

End RequestFacts.

Import RequestFacts.



(** A request for several codes returns, under each code, the table that
    the request for that code alone returns; the keys are the requested
    codes in the order they first occur, a repeated code counting once. *)
Theorem list_request_is_scalar_requests (lines : list string) (l : list Z)
    (cs : callsigns_arg) (k : Z) (d : dict frame) :
  decode lines (Codes l) cs k = Ok (Mapping d) ->
  map fst d = new_keys [] l /\
  forall c, In c l ->
    exists df, dict_get d c = Some df /\
               decode lines (Scalar c) cs k = Ok (Single df).
Proof.
  intros (v & lrt & Hv & Hl & E)%decode_mapping_stages. cbn [requested] in E. split.
  - exact (collect_keys _ _ _ _ E).
  - intros c Hin. destruct (collect_get _ _ _ _ c E Hin) as (df & Hd & Hf).
    exists df. split; [assumption|]. apply decode_scalar. exists v, lrt, df. auto.
Qed.

Lemma list_request_witness :
  exists d,
    decode sample_lines (Codes [3; 0; 3]) NoCallsigns 50000 = Ok (Mapping d) /\
    map fst d = [3; 0] /\
    exists df, dict_get d 0 = Some df /\
               decode sample_lines (Scalar 0) NoCallsigns 50000 = Ok (Single df).
Proof.
  eassert (H0 : decode sample_lines (Codes [3; 0; 3]) NoCallsigns 50000 = Ok (Mapping _))
    by (vm_compute; reflexivity).
  destruct (list_request_is_scalar_requests _ _ _ _ _ H0) as [Hk Hc].
  eexists. split; [exact H0|]. split; [exact Hk|]. apply Hc. cbn. auto.
Defined.

(** ** Failures and edge cases of the arguments *)

Module EdgeFacts.

Lemma rmap_raise {A B} (f : A -> result B) (e : exn) (l : list A) (x : A) :
  (forall y e', f y = Raise e' -> e' = e) ->
  In x l -> f x = Raise e -> rmap f l = Raise e.
Proof.
  intros Hall. induction l as [|y l IH]; intros Hin Hx; [destruct Hin|].
  cbn. destruct (f y) as [b|e'] eqn:Ey; cbn.
  - destruct Hin as [->|Hin]; [congruence|]. now rewrite IH.
  - f_equal. eapply Hall. eassumption.
Qed.

Lemma cols_keys (v : version) : map fst (cols v) = [0; 1; 2; 3; 4; 5; 6; 7; 8; 9; 10].
Proof.
  destruct (schema_three_tables v) as [[_ ->]|[(_ & _ & ->)|[_ ->]]]; reflexivity.
Qed.

Lemma dict_get_None {V} (d : dict V) (k : Z) :
  ~ In k (map fst d) -> dict_get d k = None.
Proof.
  induction d as [|[k' v'] d IH]; cbn; [reflexivity|].
  intros H. destruct (Z.eqb_spec k' k); [tauto|]. apply IH. tauto.
Qed.

Lemma keep_nil (j : nat) (l : list (list cell)) : filter (keep j []) l = [].
Proof.
  induction l as [|row l IH]; [reflexivity|]. cbn.
  unfold keep at 1. now destruct (nth_error row j) as [[]|].
Qed.

End EdgeFacts.

Import EdgeFacts.

(** One line whose leading field is not an integer (an empty line, say)
    makes the call fail with [ValueError], wherever the line is and whatever
    record types are requested. *)
Theorem unreadable_line_aborts (lines : list string) (v : version)
    (record_types : record_types_arg) (cs : callsigns_arg) (k : Z) (line : string) :
  detect_version lines = Ok v ->
  In line lines ->
  Py.int (hd EmptyString (Py.split_comma line)) = None ->
  decode lines record_types cs k = Raise ValueError.
Proof.
  intros Hv Hin Hint. unfold decode. rewrite Hv. cbn [rbind].
  rewrite (rmap_raise line_record_type ValueError lines line); [reflexivity| |assumption|].
  - intros y e'. unfold line_record_type.
    destruct (Py.int (hd EmptyString (Py.split_comma y))); cbn; intros H;
      [discriminate|congruence].
  - unfold line_record_type. now rewrite Hint.
Qed.

Lemma unreadable_line_witness :
  decode ["1,IFF,2.6"; "0,sample"; ""; "x3,1"] (Scalar 0) NoCallsigns 50000 = Raise ValueError.
Proof.
  apply (unreadable_line_aborts _ (of_release [2; 6]%N) _ _ _ "").
  - reflexivity.
  - cbn. auto.
  - reflexivity.
Defined.

(** The record types with a schema are 0 to 10, for every version. A
    request for any other code fails with the [KeyError] of that code, also
    when the file has lines of that code; so does ['all'] on a file with
    such a line fail. *)
Theorem unknown_record_type (lines : list string) (v : version) (lrt : list Z)
    (rt : Z) (cs : callsigns_arg) (k : Z) :
  detect_version lines = Ok v ->
  rmap line_record_type lines = Ok lrt ->
  rt < 0 \/ 10 < rt ->
  dict_get (cols v) rt = None /\
  decode lines (Scalar rt) cs k = Raise (KeyError_int rt) /\
  (forall record_types, asks_for record_types lines rt ->
     exists e, decode lines record_types cs k = Raise e) /\
  (forall c, 0 <= c <= 10 -> exists names, dict_get (cols v) c = Some names).
Proof.
  intros Hv Hl Hrt.
  assert (Hnone : dict_get (cols v) rt = None).
  { apply dict_get_None. rewrite cols_keys. cbn. lia. }
  assert (Hex : extract (cols v) lines lrt (callsign_list cs) k rt = Raise (KeyError_int rt)).
  { unfold extract. now rewrite Hnone. }
  split; [exact Hnone|]. split; [|split].
  - unfold decode. rewrite Hv, Hl. cbn. now rewrite Hex.
  - intros record_types Hask. unfold decode. rewrite Hv, Hl. cbn [rbind].
    destruct (DictFacts.collect_raise
                (extract (cols v) lines lrt (callsign_list cs) k)
                (requested record_types lrt) rt
                (asks_for_requested _ _ _ _ Hl Hask)) with (acc := @nil (Z * frame))
      as [e He]; [eauto|].
    rewrite He. cbn. eauto.
  - intros c Hc. apply DictFacts.In_dict_get. rewrite cols_keys. cbn. lia.
Qed.

Lemma unknown_record_type_witness :
  decode ["1,IFF,2.6"; "11,new"] (Scalar 11) NoCallsigns 50000 = Raise (KeyError_int 11) /\
  exists e, decode ["1,IFF,2.6"; "11,new"] All NoCallsigns 50000 = Raise e.
Proof.
  destruct (unknown_record_type ["1,IFF,2.6"; "11,new"] (of_release [2; 6]%N) [1; 11]
              11 NoCallsigns 50000 eq_refl eq_refl) as (_ & H1 & H2 & _); [lia|].
  split; [exact H1|]. apply H2. exists "11,new". split; [cbn; auto|reflexivity].
Defined.

(** An empty list of record types gives an empty dictionary: no table is
    read, so neither the chunk size nor the callsigns matter. For one record
    type, a chunk size below 1 makes [read_csv] fail with [ValueError]. *)
Theorem argument_edges (lines : list string) (v : version) (lrt : list Z)
    (cs : callsigns_arg) (k : Z) :
  detect_version lines = Ok v ->
  rmap line_record_type lines = Ok lrt ->
  decode lines (Codes []) cs k = Ok (Mapping []) /\
  (k < 1 -> forall rt, 0 <= rt <= 10 ->
            decode lines (Scalar rt) cs k = Raise ValueError).
Proof.
  intros Hv Hl. split.
  - unfold decode. now rewrite Hv, Hl.
  - intros Hk rt Hrt.
    destruct (DictFacts.In_dict_get (cols v) rt) as [names Hn];
      [rewrite cols_keys; cbn; lia|].
    unfold decode. rewrite Hv, Hl. cbn.
    rewrite (extract_gather _ _ _ _ _ _ Hl Hn).
    destruct (Z.ltb_spec k 1); [reflexivity|lia].
Qed.

Lemma argument_edges_witness :
  decode sample_lines (Codes []) (OneCallsign "ABC123") 0 = Ok (Mapping []) /\
  decode sample_lines (Scalar 3) NoCallsigns 0 = Raise ValueError.
Proof.
  destruct (argument_edges sample_lines (of_release [2; 6]%N) [1; 0; 3; 3; 3; 3]
              (OneCallsign "ABC123") 0 eq_refl eq_refl) as [H1 _].
  destruct (argument_edges sample_lines (of_release [2; 6]%N) [1; 0; 3; 3; 3; 3]
              NoCallsigns 0 eq_refl eq_refl) as [_ H2].
  split; [exact H1|]. apply H2; lia.
Defined.

(** A record type without line in the file decodes to the empty table with
    the renamed columns of its schema (with callsigns, provided the schema
    has the aircraft identifier). An empty list of callsigns selects no row:
    the table is empty, whatever the times of the lines. *)
Theorem empty_selection (lines : list string) (v : version) (lrt : list Z) (rt : Z)
    (names : list string) (cs : callsigns_arg) (k : Z) :
  detect_version lines = Ok v ->
  rmap line_record_type lines = Ok lrt ->
  dict_get (cols v) rt = Some names ->
  1 <= k ->
  (target_lines lines rt = [] ->
   callsign_list cs = None \/ index_of "AcId" names <> None ->
   decode lines (Scalar rt) cs k = Ok (Single (mkFrame (map renamed names) []))) /\
  (index_of "AcId" names <> None ->
   parser_accepts names k (data_of lines rt) = true ->
   decode lines (Scalar rt) (Callsigns []) k =
   Ok (Single (mkFrame (map renamed names) []))).
Proof.
  intros Hv Hl Hn Hk.
  assert (Hk' : (k <? 1) = false) by (apply Z.ltb_ge; lia).
  split.
  - intros Hempty Hcs. apply decode_scalar. exists v, lrt. eexists.
    repeat split; try eassumption.
    assert (Hd : data_of lines rt = []) by (unfold data_of; now rewrite Hempty).
    destruct (callsign_list cs) as [S|] eqn:Ecs.
    + destruct (index_of "AcId" names) as [j|] eqn:Hj;
        [|destruct Hcs; [discriminate|congruence]].
      rewrite (extract_some _ _ _ _ _ _ Hl Hn S j Hj), Hk', Hd. reflexivity.
    + rewrite (extract_none _ _ _ _ _ _ Hl Hn), Hk', Hd. reflexivity.
  - intros Hacid Hacc. destruct (index_of "AcId" names) as [j|] eqn:Hj; [|congruence].
    apply decode_scalar. exists v, lrt. eexists. repeat split; try eassumption.
    cbn [callsign_list].
    rewrite (extract_some _ _ _ _ _ _ Hl Hn [] j Hj), Hk', Hacc, keep_nil. reflexivity.
Qed.

Lemma empty_selection_witness :
  decode sample_lines (Scalar 5) NoCallsigns 50000 =
    Ok (Single (mkFrame ["recType"; "dataSource"; "programName"; "programVersion"] [])) /\
  exists names,
    decode (sample_lines ++ [track_line "soon" "JKL012" "high"]) (Scalar 3)
      (Callsigns []) 50000 = Ok (Single (mkFrame names [])).
Proof.
  split.
  - apply (empty_selection sample_lines (of_release [2; 6]%N) [1; 0; 3; 3; 3; 3] 5
             ["recType"; "dataSource"; "programName"; "programVersion"]
             NoCallsigns 50000); try reflexivity; [lia|now left].
  - eexists.
    let names := eval vm_compute in
          (match dict_get (cols (of_release [2; 6]%N)) 3 with
           | Some names => names
           | None => []
           end) in
    apply (empty_selection (sample_lines ++ [track_line "soon" "JKL012" "high"])
             (of_release [2; 6]%N) [1; 0; 3; 3; 3; 3; 3] 3 names (Callsigns []) 50000);
      try (vm_compute; reflexivity); [lia|discriminate].
Defined.

(** ** The tables returned *)

Module TableFacts.

Lemma nodupb_NoDup (l : list string) : nodupb l = true -> NoDup l.
Proof.
  induction l as [|x l IH]; cbn; [constructor|].
  intros [Hx Hl]%andb_true_iff. constructor; [|now apply IH].
  intros Hin. apply negb_true_iff in Hx. apply not_true_iff_false in Hx.
  apply Hx, existsb_exists. exists x. split; [assumption|apply String.eqb_refl].
Qed.

Lemma cols_columns_ok (v : version) :
  forallb (fun '(_, names) => columns_ok names) (cols v) = true.
Proof.
  destruct (schema_three_tables v) as [[_ ->]|[(_ & _ & ->)|[_ ->]]];
    vm_compute; reflexivity.
Qed.

Lemma columns_ok_of (v : version) (rt : Z) (names : list string) :
  dict_get (cols v) rt = Some names -> columns_ok names = true.
Proof.
  intros H%DictFacts.dict_get_In.
  pose proof (cols_columns_ok v) as Hall. rewrite forallb_forall in Hall.
  exact (Hall _ H).
Qed.

Lemma track_columns (v : version) (names : list string) :
  dict_get (cols v) 3 = Some names ->
  forallb (fun c => existsb (String.eqb c) (map renamed names)) canonical_names = true.
Proof.
  destruct (schema_three_tables v) as [[_ ->]|[(_ & _ & ->)|[_ ->]]];
    intros [= <-]; vm_compute; reflexivity.
Qed.

(** A successful pass for one record type, with its schema. *)
Lemma extract_names (v : version) (lines : list string) (lrt : list Z)
    (cs : option (list string)) (k rt : Z) (df : frame) :
  extract (cols v) lines lrt cs k rt = Ok df ->
  exists names, dict_get (cols v) rt = Some names.
Proof.
  unfold extract. destruct (dict_get (cols v) rt); [eauto|discriminate].
Qed.

Lemma extract_well_formed (v : version) (lines : list string) (lrt : list Z)
    (cs : option (list string)) (k rt : Z) (df : frame) :
  rmap line_record_type lines = Ok lrt ->
  extract (cols v) lines lrt cs k rt = Ok df ->
  well_formed df.
Proof.
  intros Hl E. destruct (extract_names _ _ _ _ _ _ _ E) as [names Hn].
  destruct (extract_rows _ _ _ _ _ _ _ _ Hl Hn E)
    as (Hk & _ & Hcols & sel & Hsel & Hincl & _).
  split.
  - rewrite Hcols. apply nodupb_NoDup.
    pose proof (columns_ok_of _ _ _ Hn) as H. unfold columns_ok in H.
    now apply andb_true_iff in H.
  - rewrite Hcols, length_map. apply Forall_forall. intros row Hrow.
    apply rmap_Forall2 in Hsel.
    destruct (Forall2_In_r _ _ _ _ Hsel Hrow) as (raw & Hraw & Hnorm).
    apply norm_row_spec in Hnorm as [Hlen _]. rewrite Hlen.
    destruct (Forall2_In_r _ _ _ _ (Forall2_flip (raw_rows_of names k _ Hk))
                (Hincl _ Hraw)) as (fields & _ & chunk & _ & _ & ->).
    now rewrite length_map, length_seq.
Qed.

Lemma cell_of_as_read (chunk : list (list string)) (line : string) (j : nat) :
  as_read j line (cell_of chunk (Py.split_comma line) j).
Proof.
  unfold as_read, cell_of, reads.
  destruct (token (Py.split_comma line) j) as [t|]; [|reflexivity].
  destruct (column_numeric chunk j); [|now left].
  destruct (parse_number t) as [d|] eqn:E; [right; eauto|now left].
Qed.

Lemma to_datetime_of_cell (chunk : list (list string)) (fields : list string)
    (j : nat) (c1 : cell) :
  to_datetime_cell (cell_of chunk fields j) = Ok c1 ->
  match token fields j with
  | None => c1 = NaT
  | Some t => exists d, parse_number t = Some d /\ in_bounds d = true /\
                        c1 = Timestamp d
  end.
Proof.
  unfold cell_of. destruct (token fields j) as [t|]; [|cbn; congruence].
  destruct (parse_number t) as [d|] eqn:E.
  - destruct (column_numeric chunk j); cbn; rewrite ?E;
      (destruct (in_bounds d) eqn:Eb; [|discriminate]); intros [= <-]; eauto.
  - destruct (column_numeric chunk j); cbn; rewrite E; discriminate.
Qed.

Lemma at_index_name (cols : list string) (a name : string) (j : nat) :
  nth_error cols j = Some name -> name <> a -> at_index (index_of a cols) j = false.
Proof.
  intros Hj Hne. destruct (index_of a cols) as [i|] eqn:E; [|reflexivity].
  cbn. destruct (Nat.eqb_spec i j) as [->|]; [|reflexivity].
  apply index_of_nth in E. congruence.
Qed.

Lemma rmap_raise_from {A B} (f : A -> result B) (l : list A) (e : exn) :
  rmap f l = Raise e -> exists x, In x l /\ f x = Raise e.
Proof.
  induction l as [|x l IH]; cbn; [discriminate|].
  destruct (f x) as [y|e'] eqn:E; cbn.
  - destruct (rmap f l) as [ys|e']; cbn; [discriminate|].
    intros [= ->]. destruct (IH eq_refl) as (x' & Hx & Hf). eauto.
  - intros [= ->]. eauto.
Qed.

Lemma isin_ext (S S' : list string) :
  (forall s, In s S <-> In s S') -> forall c, isin S c = isin S' c.
Proof.
  intros H [| |s| |]; cbn; try reflexivity.
  apply eq_true_iff_eq. rewrite !existsb_exists.
  split; intros (x & Hx & E); exists x; (split; [now apply H|exact E]).
Qed.

Lemma collect_ext (f g : Z -> result frame) (l : list Z) :
  (forall c, f c = g c) -> forall acc, collect f l acc = collect g l acc.
Proof.
  intros H. induction l as [|rt l IH]; intros acc; [reflexivity|].
  cbn. rewrite H. destruct (g rt); cbn; auto.
Qed.

End TableFacts.

Import TableFacts.

(** Every table of a result is well formed: its column names differ, and
    each row has one cell per column, with or without callsigns. *)
Theorem result_frames_well_formed (lines : list string) (record_types : record_types_arg)
    (cs : callsigns_arg) (k : Z) (out : output) :
  decode lines record_types cs k = Ok out ->
  Forall well_formed (tables out).
Proof.
  destruct out as [df|d].
  - destruct record_types as [|l|c]; intros H.
    + unfold decode in H. destruct (detect_version lines); cbn in H; [|discriminate].
      destruct (rmap _ lines); cbn in H; [|discriminate].
      destruct (collect _ _ _); cbn in H; discriminate.
    + unfold decode in H. destruct (detect_version lines); cbn in H; [|discriminate].
      destruct (rmap _ lines); cbn in H; [|discriminate].
      destruct (collect _ _ _); cbn in H; discriminate.
    + apply decode_scalar_stages in H as (v & lrt & names & _ & Hl & _ & E & _).
      repeat constructor; eapply extract_well_formed; eassumption.
  - intros (v & lrt & _ & Hl & E)%decode_mapping_stages.
    destruct (DictFacts.collect_spec _ _ _ _ E) as (_ & _ & He & _).
    cbn [tables]. apply Forall_forall. intros df ((c & df') & <- & Hin)%in_map_iff.
    apply He in Hin as [[]|[_ Hf]]. eapply extract_well_formed; eassumption.
Qed.

Lemma well_formed_witness :
  exists out, decode sample_lines (Codes [3; 0]) NoCallsigns 50000 = Ok out /\
              Forall well_formed (tables out).
Proof.
  eexists. split; [vm_compute; reflexivity|].
  apply (result_frames_well_formed sample_lines (Codes [3; 0]) NoCallsigns 50000).
  vm_compute. reflexivity.
Defined.

(** After renaming, no table has a column under one of the replaced names
    ([recTime], [AcId], [coord1], [coord2], [alt], [rateOfClimb],
    [groundSpeed], [course]); and for every version the track point table
    has the eight columns [time], [callsign], [latitude], [longitude],
    [altitude], [rocd], [tas] and [heading]. *)
Theorem canonical_columns (lines : list string) (rt : Z) (cs : callsigns_arg) (k : Z)
    (df : frame) :
  decode lines (Scalar rt) cs k = Ok (Single df) ->
  (forall name, In name old_names -> ~ In name (columns df)) /\
  (rt = 3 -> forall name, In name canonical_names -> In name (columns df)).
Proof.
  intros (v & lrt & names & _ & Hl & Hn & E & _)%decode_scalar_stages.
  destruct (extract_rows _ _ _ _ _ _ _ _ Hl Hn E) as (_ & _ & Hcols & _).
  rewrite Hcols. split.
  - intros name Hin Habs.
    pose proof (columns_ok_of _ _ _ Hn) as H. unfold columns_ok in H.
    apply andb_true_iff in H as [_ H]. rewrite forallb_forall in H.
    specialize (H name Hin). apply negb_true_iff, not_true_iff_false in H.
    apply H, existsb_exists. exists name. split; [assumption|apply String.eqb_refl].
  - intros -> name Hin. pose proof (track_columns v names Hn) as H.
    rewrite forallb_forall in H. specialize (H name Hin).
    apply existsb_exists in H as (x & Hx & ->%String.eqb_eq). exact Hx.
Qed.

Lemma canonical_columns_witness :
  exists df, decode sample_lines (Scalar 3) NoCallsigns 50000 = Ok (Single df) /\
             In "rocd" (columns df) /\ ~ In "rateOfClimb" (columns df).
Proof.
  eexists. split; [vm_compute; reflexivity|].
  destruct (canonical_columns sample_lines 3 NoCallsigns 50000 _
              ltac:(vm_compute; reflexivity)) as [H1 H2].
  split; [apply (H2 eq_refl); cbn; tauto|apply H1; cbn; tauto].
Defined.







(** The callsigns count as a set: lists with the same members, in any
    order and with any repetition, give the same result. *)
Theorem callsigns_as_set (lines : list string) (record_types : record_types_arg)
    (k : Z) (S S' : list string) :
  (forall s, In s S <-> In s S') ->
  decode lines record_types (Callsigns S) k = decode lines record_types (Callsigns S') k.
Proof.
  intros HS. unfold decode.
  destruct (detect_version lines) as [v|]; cbn [rbind]; [|reflexivity].
  destruct (rmap line_record_type lines) as [lrt|]; cbn [rbind]; [|reflexivity].
  rewrite (collect_ext
             (extract (cols v) lines lrt (callsign_list (Callsigns S)) k)
             (extract (cols v) lines lrt (callsign_list (Callsigns S')) k));
    [reflexivity|].
  intros c. unfold extract, assemble. cbn [callsign_list].
  destruct (dict_get (cols v) c) as [names|]; cbn [or_raise rbind]; [|reflexivity].
  destruct (read_csv lines _ names k) as [chunks|]; cbn [rbind]; [|reflexivity].
  f_equal. unfold gather. f_equal. apply map_ext. intros [df|e]; [|reflexivity].
  cbn [rbind]. unfold select_isin.
  destruct (index_of "AcId" (columns df)) as [j|]; [|reflexivity].
  do 2 f_equal. apply filter_ext. intros row.
  destruct (nth_error row j); [apply (isin_ext S S' HS)|reflexivity].
Qed.

Lemma callsigns_as_set_witness :
  decode sample_lines (Scalar 3) (Callsigns ["ABC123"; "GHI789"]) 50000 =
  decode sample_lines (Scalar 3) (Callsigns ["GHI789"; "ABC123"; "GHI789"]) 50000.
Proof.
  apply callsigns_as_set. intros s. cbn. tauto.
Defined.

(** ** Chunks *)

Module ChunkSizeFacts.

Lemma column_numeric_sub (chunk data : list (list string)) (j : nat) :
  incl chunk data -> column_numeric data j = true -> column_numeric chunk j = true.
Proof.
  unfold column_numeric. rewrite !forallb_forall. intros Hincl H row Hrow.
  apply H, Hincl, Hrow.
Qed.

(** In homogeneous data a cell is typed in its chunk as in the whole. *)
Lemma cell_of_chunk (n : nat) (chunk data : list (list string)) (row : list string)
    (j : nat) :
  homogeneous n data = true -> incl chunk data -> In row chunk -> (j < n)%nat ->
  cell_of chunk row j = cell_of data row j.
Proof.
  intros Hh Hincl Hrow Hj. unfold homogeneous in Hh. rewrite forallb_forall in Hh.
  specialize (Hh j). rewrite in_seq in Hh. specialize (Hh ltac:(lia)).
  unfold cell_of. destruct (token row j) as [t|] eqn:Et; [|reflexivity].
  apply orb_true_iff in Hh as [Hnum|Hnone].
  - now rewrite Hnum, (column_numeric_sub chunk data j Hincl Hnum).
  - rewrite forallb_forall in Hnone. specialize (Hnone row (Hincl _ Hrow)).
    rewrite Et in Hnone. unfold is_number in Hnone.
    destruct (parse_number t); [discriminate|].
    now destruct (column_numeric chunk j), (column_numeric data j).
Qed.

Lemma flat_typed_whole (names : list string) (data : list (list string))
    (chunks : list (list (list string))) :
  homogeneous (length names) data = true ->
  (forall ch, In ch chunks -> incl ch data) ->
  flat_map (typed names) chunks =
  map (fun row => map (cell_of data row) (seq 0 (length names))) (List.concat chunks).
Proof.
  intros Hh. induction chunks as [|ch chunks IH]; intros Hin; [reflexivity|].
  cbn. rewrite map_app, IH by (intros c Hc; apply Hin; now right). f_equal.
  unfold typed. apply map_ext_in. intros row Hrow. apply map_ext_in.
  intros j Hj%in_seq. apply (cell_of_chunk (length names)); try assumption; [|lia].
  apply Hin. now left.
Qed.

(** The rows read from homogeneous data do not depend on the chunk
    size. *)
Lemma raw_rows_whole (names : list string) (k : Z) (data : list (list string)) :
  homogeneous (length names) data = true -> 1 <= k ->
  raw_rows names k data =
  map (fun row => map (cell_of data row) (seq 0 (length names))) data.
Proof.
  intros Hh Hk. unfold raw_rows.
  assert (Hc : List.concat (chunks_of (Z.to_nat k) data) = data)
    by (apply chunks_of_concat; lia).
  rewrite (flat_typed_whole names data); [now rewrite Hc|assumption|].
  intros ch Hch row Hrow. rewrite <- Hc. apply in_concat. eauto.
Qed.

End ChunkSizeFacts.

Import ChunkSizeFacts.



(** What a callsign filter can return. Every row of a filtered table has a
    callsign that is text and a member of the given callsigns; a line whose
    identifier is a missing-value token ([NA], [null], [?], the empty field,
    ...) is never returned, even when that token is among the callsigns. *)
Theorem filtered_callsigns (lines : list string) (rt k : Z) (cs : callsigns_arg)
    (S : list string) (df : frame) :
  callsign_list cs = Some S ->
  decode lines (Scalar rt) cs k = Ok (Single df) ->
  exists j, index_of "callsign" (columns df) = Some j /\
    Forall (fun row => exists s, nth_error row j = Some (Text s) /\ In s S /\
                                 is_na s = false) (rows df).
Proof.
  intros Hcs (v & lrt & names & _ & Hl & Hn & E & Hk')%decode_scalar_stages.
  rewrite Hcs in E.
  destruct (index_of "AcId" names) as [j|] eqn:Hj.
  2:{ destruct (extract_some_no_acid _ _ _ _ _ k Hl Hn S Hj) as (e & He & _). congruence. }
  destruct (schema_indices _ _ _ Hn) as (_ & _ & Hc). rewrite Hj in Hc.
  rewrite (extract_some _ _ _ _ _ _ Hl Hn S j Hj), Hk' in E.
  destruct (parser_accepts names k (data_of lines rt)); [|discriminate].
  destruct (rmap (nrow names) _) as [rs|] eqn:Hrs; [|discriminate].
  cbn in E. injection E as <-. cbn [rows columns]. exists j. split; [assumption|].
  assert (Hk : 1 <= k) by (apply Z.ltb_ge in Hk'; lia).
  apply rmap_Forall2 in Hrs. apply Forall_forall. intros row Hrow.
  destruct (Forall2_In_r _ _ _ _ Hrs Hrow) as (raw & [Hraw Hkeep]%filter_In & Hnorm).
  apply keep_true in Hkeep as (s & Hs & HS).
  apply norm_row_spec in Hnorm as [_ Hcells].
  destruct (Hcells j _ Hs) as (c1 & H1 & H2).
  rewrite (at_index_distinct _ "time" "callsign" j) in H1 by (discriminate || assumption).
  rewrite (at_index_distinct _ "altitude" "callsign" j) in H2 by (discriminate || assumption).
  subst c1. exists s. repeat split; try assumption.
  destruct (Forall2_In_r _ _ _ _ (Forall2_flip (raw_rows_of names k _ Hk)) Hraw)
    as (fields & _ & chunk & _ & _ & ->).
  assert (Hlt : (j < length names)%nat) by now apply index_of_lt in Hj.
  rewrite (nth_error_map_seq _ _ _ Hlt) in Hs. injection Hs as Hs.
  unfold cell_of, token in Hs.
  destruct (nth_error fields j) as [t|]; [|discriminate].
  destruct (is_na t) eqn:Ena; [discriminate|].
  destruct (column_numeric chunk j); [destruct (parse_number t)|];
    try discriminate; now injection Hs as <-.
Qed.

Lemma filtered_callsigns_witness :
  exists df,
    decode (sample_lines ++ [track_line "1546300804" "NA" "2"]) (Scalar 3)
      (Callsigns ["NA"; "DEF456"]) 50000 = Ok (Single df) /\
    column "callsign" df = [Text "DEF456"] /\
    exists j, index_of "callsign" (columns df) = Some j /\
      Forall (fun row => exists s, nth_error row j = Some (Text s) /\
                                   In s ["NA"; "DEF456"] /\ is_na s = false) (rows df).
Proof.
  eexists. split; [vm_compute; reflexivity|]. split; [vm_compute; reflexivity|].
  apply (filtered_callsigns (sample_lines ++ [track_line "1546300804" "NA" "2"]) 3 50000
           (Callsigns ["NA"; "DEF456"])); [reflexivity|].
  vm_compute. reflexivity.
Defined.
